(** * molstar-viper: PLY shape provider and cooperative yielding

    A shallow embedding of
      - [src/mol-model-formats/shape/ply.ts]  (module [Ply] below), and
      - [src/perf-tests/tasks.ts]             (module [Tasks] below),
    together with the properties the design document states about them. *)

From Stdlib Require Import ZArith List Bool String Lia.
From stdpp Require Import base option list strings pretty.
Import ListNotations.

Local Open Scope Z_scope.

(* ===================================================================== *)
(** * perf-tests/tasks.ts *)
(* ===================================================================== *)

Module Tasks.

(** The classes read the clock through [now()].  A clock reading is a
    number of milliseconds; every call of [now()] is given its reading
    as an argument. *)

(** [class Yielding]: one call, which sometimes returns a promise. *)
Module Yielding.
Record t := mk { lastUpdated : Z }.

Definition new : t := mk 0.

(** [yield()]: the boolean tells whether a promise was returned, that
    is, whether the caller suspends. *)
Definition yield (now : Z) (y : t) : t * bool :=
  let t := now in
  if t - lastUpdated y <? 250 then (y, false)
  else (mk t, true).
End Yielding.

(** [class CheckYielding]: a predicate and an operation that always
    suspends. *)
Module CheckYielding.
Record t := mk { lastUpdated : Z }.

Definition new : t := mk 0.

Definition needsYield (now : Z) (y : t) : bool :=
  now - lastUpdated y >? 250.

(** [yield()] reads the clock again. *)
Definition yield (now : Z) (y : t) : t := mk now.
End CheckYielding.

(** One checkpoint of [yielding1]:
    [if (i % 10000 === 0 && (yy = y.yield())) await yy]. *)
Definition maybeAwaitable (now : Z) (y : Yielding.t) : Yielding.t * bool :=
  Yielding.yield now y.

(** One checkpoint of [testYielding]:
    [if (i % 10000 === 0 && y.needsYield) await y.yield()].
    [now] is the reading of [needsYield], [now'] the one of [yield]. *)
Definition checkThenYield (now now' : Z) (y : CheckYielding.t)
  : CheckYielding.t * bool :=
  if CheckYielding.needsYield now y then (CheckYielding.yield now' y, true)
  else (y, false).

(** The suspension decisions of each strategy over the clock readings
    met at successive checkpoints. *)
Fixpoint runYielding (y : Yielding.t) (clock : list Z) : list bool :=
  match clock with
  | [] => []
  | t :: clock' =>
      let '(y', s) := maybeAwaitable t y in s :: runYielding y' clock'
  end.

Fixpoint runCheckYielding (y : CheckYielding.t) (clock : list (Z * Z))
  : list bool :=
  match clock with
  | [] => []
  | (t, t') :: clock' =>
      let '(y', s) := checkThenYield t t' y in s :: runCheckYielding y' clock'
  end.

(** A clock that does not advance between [needsYield] and [yield]. *)
Definition sameReading (clock : list Z) : list (Z * Z) :=
  map (fun t => (t, t)) clock.

(** Time elapsed at each checkpoint since the last suspension of the
    [Yielding] strategy. *)
Fixpoint elapsed (last : Z) (clock : list Z) : list Z :=
  match clock with
  | [] => []
  | t :: clock' =>
      (t - last) :: elapsed (if t - last <? 250 then last else t) clock'
  end.

End Tasks.

(* ===================================================================== *)
(** * mol-model-formats/shape/ply.ts *)
(* ===================================================================== *)

Module Ply.

(** A JavaScript [number] is an integer here.  The pipeline copies property
    values from columns into buffers and does no arithmetic on them, apart
    from the conversion of identifiers to [Uint32]; fractional values, the
    element width of the buffers and [NaN] are outside the model.  A read
    [a[i]] outside an array is [undefined], written [None]. *)

(** The ways a call can be rejected. *)
Inductive Error :=
| MissingVertexElement          (* Error('missing vertex element') *)
| MissingFaceElement            (* Error('missing face element') *)
| MissingCoordinateProperties   (* Error('missing coordinate properties') *)
| Aborted                       (* rejection of [ctx.update] after cancellation *)
| InvalidArrayLength            (* RangeError of a typed array constructor *)
| TypeError.                    (* a method call on [undefined] *)

(** ** Typed arrays *)

Definition toUint32 (z : Z) : Z := z mod 2 ^ 32.

(** [new Uint32Array(n)]: zero filled.  The constructor throws a
    [RangeError] when the length is negative or when the engine cannot
    allocate that many cells; [maxLength] is the largest length it can
    allocate, which depends on the engine and on its memory. *)
Definition newUint32Array (maxLength : Z) (n : Z) : Error + list Z :=
  if (n <? 0) || (maxLength <? n) then inl InvalidArrayLength
  else inr (replicate (Z.to_nat n) 0).

(** [a[i]] for a numeric index [i]. *)
Definition arrayGet {A} (a : list A) (i : Z) : option A :=
  if i <? 0 then None else a !! Z.to_nat i.

(** [a[i] = v] on a [Uint32Array]: the value wraps, a write outside the
    array is dropped. *)
Definition uint32Set (a : list Z) (i : Z) (v : Z) : list Z :=
  if i <? 0 then a else <[Z.to_nat i := toUint32 v]> a.

(** [for (let i = 0, il = n; i < il; ++i) body], on a loop state. *)
Fixpoint forRange {X} (i n : nat) (body : nat -> X -> X) (s : X) : X :=
  match n with
  | O => s
  | S n' => forRange (S i) n' body (body i s)
  end.

(** Modelled from the spec: [fillSerial] of mol-util/array is not among the
    sources; it writes "sequential identifiers 0..N-1" into the array. *)
Definition fillSerial (a : list Z) : list Z :=
  forRange 0 (length a) (fun i a => uint32Set a (Z.of_nat i) (Z.of_nat i)) a.

(** Modelled from the spec: [arrayMax] of mol-util/array is not among the
    sources; it "computes the maximum identifier".  An empty array has no
    maximum. *)
Definition arrayMax (a : list Z) : option Z :=
  match a with
  | [] => None
  | x :: a' => Some (fold_left Z.max a' x)
  end.

(** ** Columns and tables *)

(** Modelled from the spec: [Column] of mol-data/db is not among the
    sources; a column is "a bound column reader (value(rowIndex) → number)"
    over a fixed row count, "array-backed or constant-valued". *)
Module Column.
Record t := mk { rowCount : nat; value : nat -> Z }.

(** [Column.ofConst(v, rowCount, int)] *)
Definition ofConst (v : Z) (rowCount : nat) : t := mk rowCount (fun _ => v).

(** [column.toArray({ array: Uint32Array })] *)
Definition toUint32Array (c : t) : list Z :=
  map (fun i => toUint32 (value c i)) (seq 0 (rowCount c)).
End Column.

(** Modelled from the spec: [PlyTable] of mol-io/reader/ply/schema is not
    among the sources; "an ordered collection of named, typed columns with
    a fixed row count". *)
Module PlyTable.
Record t := mk { rowCount : nat; properties : list (string * (nat -> Z)) }.

Definition propertyNames (v : t) : list string := map fst (properties v).

(** [vertex.getProperty(name)]: [None] is [undefined]. *)
Definition getProperty (v : t) (name : string) : option Column.t :=
  match find (fun p => String.eqb (fst p) name) (properties v) with
  | Some (_, f) => Some (Column.mk (rowCount v) f)
  | None => None
  end.
End PlyTable.

(** Modelled from the spec: [PlyList] of mol-io/reader/ply/schema is not
    among the sources; a row is "{entries: sequence of integer indices,
    count: integer}". *)
Module PlyList.
Record row := mkRow { entries : list Z; count : Z }.
Record t := mk { rowCount : nat; value : nat -> row }.
End PlyList.

(** A [PlyFile] is an object: [ref] is its identity, compared by [===]. *)
Module PlyFile.
Record t := mk {
  ref : nat;
  vertex : option PlyTable.t;   (* getElement('vertex') *)
  face : option PlyList.t       (* getElement('face') *)
}.
End PlyFile.

(** ** Colors and parameters *)

(** Modelled from the spec: [Color] of mol-util/color is not among the
    sources; a color is an "RGB triple", [toRgb] gives "its red, green and
    blue components". *)
Module Color.
Record t := mk { r : Z; g : Z; b : Z }.
Definition fromRgb (r g b : Z) : t := mk r g b.
Definition toRgb (c : t) : Z * Z * Z := (r c, g c, b c).
End Color.

(** [PD.Values<PlyShapeParams>], the two groups the provider reads (the
    values of [Mesh.Params] are carried along and never read). *)
Inductive ColoringParams :=
| ColoringVertex (red green blue : string)   (* name: 'vertex' *)
| ColoringUniform (color : Color.t).         (* name: 'uniform' *)

Inductive GroupingParams :=
| GroupingVertex (group : string)            (* name: 'vertex' *)
| GroupingNone.                              (* name: 'none' *)

Record Props := mkProps { coloring : ColoringParams; grouping : GroupingParams }.

#[global] Instance Color_eq_dec : EqDecision Color.t.
Proof. solve_decision. Defined.
#[global] Instance ColoringParams_eq_dec : EqDecision ColoringParams.
Proof. solve_decision. Defined.
#[global] Instance GroupingParams_eq_dec : EqDecision GroupingParams.
Proof. solve_decision. Defined.

(** Modelled from the spec: [PD.isParamEqual] of mol-util/param-definition
    is not among the sources; "a structural (deep) comparison of only the
    params relevant to each concern". *)
Definition isParamEqual {A} `{EqDecision A} (a b : A) : bool :=
  bool_decide (a = b).

(** [deepClone(props)]: parameters are values. *)
Definition deepClone (props : Props) : Props := props.

(** ** Execution context and object identity *)

(** Modelled from the spec: [RuntimeContext] of mol-task is not among the
    sources; "shouldUpdate → boolean, update({current, max, message}) →
    suspends until resumed", and a consumer fails "with a cancelled
    condition" when the cancellation flag is set at a checkpoint.  The
    context is the answers its next reads of [shouldUpdate] will give and
    whether its next calls of [update] are rejected; past the end of a
    list the answer is [false]. *)
Record RuntimeContext := mkCtx {
  shouldUpdates : list bool;
  cancellations : list bool
}.

(** Kinds of objects the provider creates. *)
Inductive Kind := KBuilderState | KMesh | KColoring | KGrouping | KShape.

(** What a build runs in: the context and the objects created so far. *)
Record Env := mkEnv { ctx : RuntimeContext; heap : list Kind }.

(** An object with its identity. *)
Record Obj (A : Type) := mkObj { addr : nat; obj : A }.
Arguments mkObj {A} _ _.
Arguments addr {A} _.
Arguments obj {A} _.

(** A computation on a state [St] that returns or throws; the state
    reached is kept in both cases. *)
Definition Task (St A : Type) : Type := St -> (Error + A) * St.

Definition ret {St A} (a : A) : Task St A := fun s => (inr a, s).

Definition throw {St A} (e : Error) : Task St A := fun s => (inl e, s).

Definition bind {St A B} (m : Task St A) (k : A -> Task St B) : Task St B :=
  fun s =>
    match m s with
    | (inr a, s') => k a s'
    | (inl e, s') => (inl e, s')
    end.

Notation "x <- m ;; k" := (bind m (fun x => k))
  (at level 100, m at next level, right associativity).
Notation "m ;;; k" := (bind m (fun _ => k))
  (at level 100, right associativity).

(** [for (let i = 0, il = n; i < il; ++i) body], with effects. *)
Fixpoint forTask {St X} (i n : nat) (body : nat -> X -> Task St X) (s : X)
  : Task St X :=
  match n with
  | O => ret s
  | S n' => s' <- body i s ;; forTask (S i) n' body s'
  end.

(** A new object of kind [k]. *)
Definition alloc {A} (k : Kind) (a : A) : Task Env (Obj A) :=
  fun e => (inr (mkObj (length (heap e)) a), mkEnv (ctx e) (heap e ++ [k])).

(** [ctx.shouldUpdate] *)
Definition shouldUpdate : Task Env bool :=
  fun e =>
    let c := ctx e in
    match shouldUpdates c with
    | [] => (inr false, e)
    | u :: us => (inr u, mkEnv (mkCtx us (cancellations c)) (heap e))
    end.

(** [await ctx.update({ current, max, message })] *)
Definition update (current max : nat) (message : string) : Task Env unit :=
  fun e =>
    let c := ctx e in
    match cancellations c with
    | [] => (inr tt, e)
    | x :: xs =>
        let e' := mkEnv (mkCtx (shouldUpdates c) xs) (heap e) in
        if x then (inl Aborted, e') else (inr tt, e')
    end.

(** ** Buffers, meshes and the mesh builder *)

(** Modelled from the spec: [ChunkedArray] of mol-data/util is not among
    the sources; "an append-only sequence of fixed-width numeric tuples
    (scalars or 3-tuples)". *)
Module ChunkedArray.
Definition t (A : Type) : Type := list A.
Definition add {A} (a : t A) (x : A) : t A := a ++ [x].
Definition add3 {A} (a : t A) (x y z : A) : t A := a ++ [x; y; z].
End ChunkedArray.

(** Modelled from the spec: [Mesh] of mol-geo/geometry/mesh is not among
    the sources; "vertex positions, normals, triangle indices, per-vertex
    group id, vertex/normal/index counts, and a flag".  The group and index
    buffers receive array reads, which may be [undefined]. *)
Module Mesh.
Record t := mk {
  vertexCount : nat;
  triangleCount : nat;
  vertexBuffer : list Z;
  indexBuffer : list (option Z);
  normalBuffer : list Z;
  groupBuffer : list (option Z);
  normalsComputed : bool
}.

Definition setNormalsComputed (f : bool) (m : t) : t :=
  mk (vertexCount m) (triangleCount m) (vertexBuffer m) (indexBuffer m)
     (normalBuffer m) (groupBuffer m) f.

Definition setNormalBuffer (n : list Z) (m : t) : t :=
  mk (vertexCount m) (triangleCount m) (vertexBuffer m) (indexBuffer m)
     n (groupBuffer m) (normalsComputed m).
End Mesh.

(** Modelled from the spec: [MeshBuilder] of mol-geo/geometry/mesh is not
    among the sources; its state "aggregates four GrowableBuffers
    (vertices, normals, indices, group-ids)", is "created at the start of
    a full rebuild" and "frozen into a Mesh at the end".  The previous mesh
    is a hint for buffer reuse that "does not change observable output";
    the chunk size only sets how the buffers grow. *)
Module MeshBuilder.
Record State := mkState {
  vertices : ChunkedArray.t Z;
  normals : ChunkedArray.t Z;
  indices : ChunkedArray.t (option Z);
  groups : ChunkedArray.t (option Z)
}.

(** [MeshBuilder.createState(initialCount, chunkSize, mesh)] *)
Definition createState (initialCount : nat) (mesh : option (Obj Mesh.t))
  : Task Env State :=
  st <- alloc KBuilderState (mkState [] [] [] []) ;; ret (obj st).

(** [MeshBuilder.getMesh(builderState)] *)
Definition getMesh (st : State) : Task Env (Obj Mesh.t) :=
  alloc KMesh
    (Mesh.mk (Nat.div (length (vertices st)) 3) (Nat.div (length (indices st)) 3)
       (vertices st) (indices st) (normals st) (groups st) false).
End MeshBuilder.

Section Provider.

(** The normals the finalization step computes from positions and
    triangles (floating-point geometry of mol-geo, not among the sources). *)
Variable faceNormals : list Z -> list (option Z) -> list Z.

(** The largest typed array the engine allocates (see [newUint32Array]). *)
Variable maxLength : Z.

(** Modelled from the spec: [Mesh.computeNormals] is not among the
    sources; "if normals were not supplied, compute per-vertex normals from
    the finished triangle list ... as a finalization step". *)
Definition computeNormals (m : Obj Mesh.t) : Task Env (Obj Mesh.t) :=
  if Mesh.normalsComputed (obj m) then ret m
  else
    let n := faceNormals (Mesh.vertexBuffer (obj m)) (Mesh.indexBuffer (obj m)) in
    ret (mkObj (addr m)
           (Mesh.setNormalsComputed true (Mesh.setNormalBuffer n (obj m)))).

(** [if (i % 100000 === 0 && ctx.shouldUpdate) await ctx.update(...)] *)
Definition checkpoint (i il : nat) (what : string) : Task Env unit :=
  if Z.of_nat i mod 100000 =? 0 then
    u <- shouldUpdate ;;
    if u then update i il (what +:+ pretty (Z.of_nat i)) else ret tt
  else ret tt.

(** One turn of the vertex loop. *)
Definition addVertex (x y z : Column.t) (n : option (Column.t * Column.t * Column.t))
    (groupIds : list Z) (il i : nat) (st : MeshBuilder.State)
  : Task Env MeshBuilder.State :=
  checkpoint i il "adding vertex " ;;;
  let vertices :=
    ChunkedArray.add3 (MeshBuilder.vertices st)
      (Column.value x i) (Column.value y i) (Column.value z i) in
  let normals :=
    match n with
    | Some (nx, ny, nz) =>
        ChunkedArray.add3 (MeshBuilder.normals st)
          (Column.value nx i) (Column.value ny i) (Column.value nz i)
    | None => MeshBuilder.normals st
    end in
  let groups := ChunkedArray.add (MeshBuilder.groups st) (groupIds !! i) in
  ret (MeshBuilder.mkState vertices normals (MeshBuilder.indices st) groups).

(** One turn of the face loop. *)
Definition addFace (face : PlyList.t) (il i : nat) (st : MeshBuilder.State)
  : Task Env MeshBuilder.State :=
  checkpoint i il "adding face " ;;;
  let entries := PlyList.entries (PlyList.value face i) in
  let count := PlyList.count (PlyList.value face i) in
  if count =? 3 then
    ret (MeshBuilder.mkState (MeshBuilder.vertices st) (MeshBuilder.normals st)
           (ChunkedArray.add3 (MeshBuilder.indices st)
              (entries !! 0%nat) (entries !! 1%nat) (entries !! 2%nat))
           (MeshBuilder.groups st))
  else ret st.

(** [async function getMesh(ctx, vertex, face, groupIds, mesh?)]; the
    context is part of the environment the task runs in. *)
Definition getMesh (vertex : PlyTable.t) (face : PlyList.t) (groupIds : list Z)
    (mesh : option (Obj Mesh.t)) : Task Env (Obj Mesh.t) :=
  builderState <- MeshBuilder.createState (PlyTable.rowCount vertex) mesh ;;
  match PlyTable.getProperty vertex "x", PlyTable.getProperty vertex "y",
        PlyTable.getProperty vertex "z" with
  | Some x, Some y, Some z =>
      let n :=
        match PlyTable.getProperty vertex "nx", PlyTable.getProperty vertex "ny",
              PlyTable.getProperty vertex "nz" with
        | Some nx, Some ny, Some nz => Some (nx, ny, nz)
        | _, _, _ => None
        end in
      let hasNormals := match n with Some _ => true | None => false end in
      let il := PlyTable.rowCount vertex in
      st <- forTask 0 il (addVertex x y z n groupIds il) builderState ;;
      let il := PlyList.rowCount face in
      st <- forTask 0 il (addFace face il) st ;;
      m <- MeshBuilder.getMesh st ;;
      let m := mkObj (addr m) (Mesh.setNormalsComputed hasNormals (obj m)) in
      computeNormals m
  | _, _, _ => throw MissingCoordinateProperties
  end.

(** ** Grouping and coloring *)

Record Grouping := mkGrouping { ids : list Z; map : list Z }.

Definition getGrouping (vertex : PlyTable.t) (props : Props) : Error + Grouping :=
  let rowCount := PlyTable.rowCount vertex in
  let column :=
    match grouping props with
    | GroupingVertex group => PlyTable.getProperty vertex group
    | GroupingNone => None
    end in
  let ids :=
    match column with
    | Some c => inr (Column.toUint32Array c)
    | None =>
        match newUint32Array maxLength (Z.of_nat rowCount) with
        | inr a => inr (fillSerial a)
        | inl e => inl e
        end
    end in
  match ids with
  | inl e => inl e
  | inr ids =>
      match arrayMax ids with
      | None => inl InvalidArrayLength   (* no length [maxId + 1] to allocate *)
      | Some maxId =>
          match newUint32Array maxLength (maxId + 1) with
          | inl e => inl e
          | inr map =>
              let map :=
                forRange 0 (length ids)
                  (fun i map =>
                     match ids !! i with
                     | Some id => uint32Set map id (Z.of_nat i)
                     | None => map
                     end) map in
              inr (mkGrouping ids map)
          end
      end
  end.

Record Coloring := mkColoring { red : Column.t; green : Column.t; blue : Column.t }.

Definition getColoring (vertex : PlyTable.t) (props : Props) : Coloring :=
  let rowCount := PlyTable.rowCount vertex in
  match coloring props with
  | ColoringVertex r g b =>
      mkColoring
        (default (Column.ofConst 127 rowCount) (PlyTable.getProperty vertex r))
        (default (Column.ofConst 127 rowCount) (PlyTable.getProperty vertex g))
        (default (Column.ofConst 127 rowCount) (PlyTable.getProperty vertex b))
  | ColoringUniform color =>
      let '(r, g, b) := Color.toRgb color in
      mkColoring (Column.ofConst r rowCount) (Column.ofConst g rowCount)
        (Column.ofConst b rowCount)
  end.

(** ** Shapes *)

(** Modelled from the spec: [Shape] of mol-model/shape is not among the
    sources; "a handle referencing the source dataset, the Mesh, and three
    callbacks keyed by per-vertex group id".  [getColor] answers [None]
    when its lookup in the dense map is [undefined]. *)
Record Shape := mkShape {
  name : string;
  sourceData : PlyFile.t;
  geometry : Obj Mesh.t;
  getColor : Z -> option Color.t;
  getSize : Z -> Z;
  getLabel : Z -> Error + string
}.

Definition createShape (plyFile : PlyFile.t) (mesh : Obj Mesh.t)
    (coloring : Obj Coloring) (grouping : Obj Grouping) : Task Env (Obj Shape) :=
  let red := red (obj coloring) in
  let green := green (obj coloring) in
  let blue := blue (obj coloring) in
  let ids := ids (obj grouping) in
  let map := map (obj grouping) in
  alloc KShape
    (mkShape "ply-mesh" plyFile mesh
       (fun groupId =>
          match arrayGet map groupId with
          | Some idx =>
              Some (Color.fromRgb (Column.value red (Z.to_nat idx))
                      (Column.value green (Z.to_nat idx))
                      (Column.value blue (Z.to_nat idx)))
          | None => None
          end)
       (fun _ => 1)
       (fun groupId =>
          match arrayGet ids groupId with
          | Some id => inr (pretty id)
          | None => inl TypeError   (* undefined.toString() *)
          end)).

(** ** The shape getter and its cache *)

(** The variables [makeShapeGetter] closes over; [None] is [undefined]. *)
Record Cache := mkCache {
  _plyFile : option PlyFile.t;
  _props : option Props;
  _shape : option (Obj Shape);
  _mesh : option (Obj Mesh.t);
  _coloring : option (Obj Coloring);
  _grouping : option (Obj Grouping)
}.

(** [makeShapeGetter()] starts with every variable unset. *)
Definition emptyCache : Cache := mkCache None None None None None None.

Record World := mkWorld { env : Env; cache : Cache }.

Definition inEnv {A} (m : Task Env A) : Task World A :=
  fun w => let '(r, e) := m (env w) in (r, mkWorld e (cache w)).

Definition readCache : Task World Cache := fun w => (inr (cache w), w).

Definition assign (f : Cache -> Cache) : Task World unit :=
  fun w => (inr tt, mkWorld (env w) (f (cache w))).

Definition set_plyFile (v : PlyFile.t) (c : Cache) : Cache :=
  mkCache (Some v) (_props c) (_shape c) (_mesh c) (_coloring c) (_grouping c).
Definition set_props (v : Props) (c : Cache) : Cache :=
  mkCache (_plyFile c) (Some v) (_shape c) (_mesh c) (_coloring c) (_grouping c).
Definition set_shape (v : Obj Shape) (c : Cache) : Cache :=
  mkCache (_plyFile c) (_props c) (Some v) (_mesh c) (_coloring c) (_grouping c).
Definition set_mesh (v : Obj Mesh.t) (c : Cache) : Cache :=
  mkCache (_plyFile c) (_props c) (_shape c) (Some v) (_coloring c) (_grouping c).
Definition set_coloring (v : Obj Coloring) (c : Cache) : Cache :=
  mkCache (_plyFile c) (_props c) (_shape c) (_mesh c) (Some v) (_grouping c).
Definition set_grouping (v : Obj Grouping) (c : Cache) : Cache :=
  mkCache (_plyFile c) (_props c) (_shape c) (_mesh c) (_coloring c) (Some v).

(** A synchronous call that returns or throws. *)
Definition call {St A} (r : Error + A) : Task St A :=
  match r with inl e => throw e | inr a => ret a end.

(** [getShape(ctx, plyFile, props, shape?)] of [makeShapeGetter]. *)
Definition getShape (plyFile : PlyFile.t) (props : Props)
    (shape : option (Obj Shape)) : Task World (option (Obj Shape)) :=
  match PlyFile.vertex plyFile with
  | None => throw MissingVertexElement
  | Some vertex =>
  match PlyFile.face plyFile with
  | None => throw MissingFaceElement
  | Some face =>
    c <- readCache ;;
    let newMesh :=
      match _plyFile c with
      | Some f => negb (PlyFile.ref f =? PlyFile.ref plyFile)%nat
      | None => true
      end
      || match _props c with
         | Some p => negb (isParamEqual (grouping p) (grouping props))
         | None => true
         end in
    let newColor :=
      match _props c with
      | Some p => negb (isParamEqual (coloring p) (coloring props))
      | None => true
      end in
    (if newMesh then
       col <- inEnv (alloc KColoring (getColoring vertex props)) ;;
       assign (set_coloring col) ;;;
       grp <- inEnv (g <- call (getGrouping vertex props) ;; alloc KGrouping g) ;;
       assign (set_grouping grp) ;;;
       m <- inEnv (getMesh vertex face (ids (obj grp))
                     (option_map (fun s => geometry (obj s)) shape)) ;;
       assign (set_mesh m) ;;;
       s <- inEnv (createShape plyFile m col grp) ;;
       assign (set_shape s)
     else if newColor then
       col <- inEnv (alloc KColoring (getColoring vertex props)) ;;
       assign (set_coloring col) ;;;
       match _mesh c, _grouping c with
       | Some m, Some grp =>
           s <- inEnv (createShape plyFile m col grp) ;;
           assign (set_shape s)
       | _, _ => throw TypeError   (* not reached: [_props] is set after a build *)
       end
     else ret tt) ;;;
    assign (set_plyFile plyFile) ;;;
    assign (set_props (deepClone props)) ;;;
    c <- readCache ;;
    ret (_shape c)
  end
  end.

End Provider.

End Ply.

(* ===================================================================== *)
(** * What the loops compute *)
(* ===================================================================== *)

Module PlySpec.
Import Ply.

(** The three mandatory coordinate columns, when all are present. *)
Definition coordinates (vertex : PlyTable.t)
  : option (Column.t * Column.t * Column.t) :=
  match PlyTable.getProperty vertex "x", PlyTable.getProperty vertex "y",
        PlyTable.getProperty vertex "z" with
  | Some x, Some y, Some z => Some (x, y, z)
  | _, _, _ => None
  end.

(** The three normal columns, when all are present. *)
Definition suppliedNormals (vertex : PlyTable.t)
  : option (Column.t * Column.t * Column.t) :=
  match PlyTable.getProperty vertex "nx", PlyTable.getProperty vertex "ny",
        PlyTable.getProperty vertex "nz" with
  | Some nx, Some ny, Some nz => Some (nx, ny, nz)
  | _, _, _ => None
  end.

(** Rows [i .. i+n-1] of three columns, interleaved. *)
Definition triples (c : Column.t * Column.t * Column.t) (i n : nat) : list Z :=
  let '(a, b, c) := c in
  flat_map (fun j => [Column.value a j; Column.value b j; Column.value c j])
    (seq i n).

Definition optTriples (c : option (Column.t * Column.t * Column.t)) (i n : nat)
  : list Z :=
  match c with Some c => triples c i n | None => [] end.

(** The reads [groupIds[j]] for rows [i .. i+n-1]. *)
Definition groupReads (groupIds : list Z) (i n : nat) : list (option Z) :=
  List.map (fun j => groupIds !! j) (seq i n).

(** What face row [j] adds to the index buffer. *)
Definition triangle (face : PlyList.t) (j : nat) : list (option Z) :=
  let r := PlyList.value face j in
  if PlyList.count r =? 3
  then [PlyList.entries r !! 0%nat; PlyList.entries r !! 1%nat;
        PlyList.entries r !! 2%nat]
  else [].

Definition triangles (face : PlyList.t) (i n : nat) : list (option Z) :=
  flat_map (triangle face) (seq i n).

(** A face row is well formed when [count] is the number of its entries. *)
Definition wfFace (face : PlyList.t) : Prop :=
  forall j, (j < PlyList.rowCount face)%nat ->
    PlyList.count (PlyList.value face j)
    = Z.of_nat (length (PlyList.entries (PlyList.value face j))).

(** What the design document says face row [j] contributes: its entries
    when it has exactly three, nothing otherwise. *)
Definition materialized (face : PlyList.t) (j : nat) : list (option Z) :=
  let r := PlyList.value face j in
  if (length (PlyList.entries r) =? 3)%nat
  then List.map Some (PlyList.entries r)
  else [].

Definition isTriangle (face : PlyList.t) (j : nat) : bool :=
  (length (PlyList.entries (PlyList.value face j)) =? 3)%nat.

(** The column the grouping parameters select, if any. *)
Definition groupColumn (vertex : PlyTable.t) (props : Props) : option Column.t :=
  match grouping props with
  | GroupingVertex group => PlyTable.getProperty vertex group
  | GroupingNone => None
  end.

(** The identifier of row [i]: the value of the group column as a
    [Uint32], or [i] itself when no group column is selected. *)
Definition rowId (vertex : PlyTable.t) (props : Props) (i : nat) : Z :=
  toUint32 (match groupColumn vertex props with
            | Some c => Column.value c i
            | None => Z.of_nat i
            end).

(** Whether face row [j] has a count of 3. *)
Definition hasCount3 (face : PlyList.t) (j : nat) : bool :=
  PlyList.count (PlyList.value face j) =? 3.

(** The column a channel of the per-vertex coloring resolves to. *)
Definition channel (vertex : PlyTable.t) (name : string) : Column.t :=
  match PlyTable.getProperty vertex name with
  | Some c => c
  | None => Column.ofConst 127 (PlyTable.rowCount vertex)
  end.

(** The effect of one turn of each loop on the builder state. *)
Definition vertexStep (c : Column.t * Column.t * Column.t)
    (n : option (Column.t * Column.t * Column.t)) (groupIds : list Z)
    (j : nat) (st : MeshBuilder.State) : MeshBuilder.State :=
  MeshBuilder.mkState
    (MeshBuilder.vertices st ++ triples c j 1)
    (MeshBuilder.normals st ++ optTriples n j 1)
    (MeshBuilder.indices st)
    (MeshBuilder.groups st ++ groupReads groupIds j 1).

Definition faceStep (face : PlyList.t) (j : nat) (st : MeshBuilder.State)
  : MeshBuilder.State :=
  MeshBuilder.mkState (MeshBuilder.vertices st) (MeshBuilder.normals st)
    (MeshBuilder.indices st ++ triangle face j) (MeshBuilder.groups st).

(** The context never rejects an [update]. *)
Definition neverCancelled (e : Env) : Prop :=
  Forall (fun x => x = false) (cancellations (ctx e)).

(** What a turn of a loop of the builder does to the environment: it
    creates no object, and it fails only by a cancellation. *)
Definition turnOf {X} (t : Task Env X) (v : X) (e : Env) : Prop :=
  exists e1,
    heap e1 = heap e /\ (neverCancelled e -> neverCancelled e1)
    /\ (t e = (inr v, e1) \/ (t e = (inl Aborted, e1) /\ ~ neverCancelled e)).

(** The mesh a completed build returns. *)
Definition builtMesh (faceNormals : list Z -> list (option Z) -> list Z)
    (vertex : PlyTable.t) (face : PlyList.t) (groupIds : list Z)
    (c : Column.t * Column.t * Column.t) : Mesh.t :=
  let vs := triples c 0 (PlyTable.rowCount vertex) in
  let ts := triangles face 0 (PlyList.rowCount face) in
  let n := suppliedNormals vertex in
  Mesh.mk (Nat.div (length vs) 3) (Nat.div (length ts) 3) vs ts
    (match n with
     | Some _ => optTriples n 0 (PlyTable.rowCount vertex)
     | None => faceNormals vs ts
     end)
    (groupReads groupIds 0 (PlyTable.rowCount vertex)) true.

(** The shape [createShape] makes, without its identity. *)
Definition shapeOf (plyFile : PlyFile.t) (mesh : Obj Mesh.t)
    (coloring : Obj Coloring) (grouping : Obj Grouping) : Shape :=
  mkShape "ply-mesh" plyFile mesh
    (fun groupId =>
       match arrayGet (map (obj grouping)) groupId with
       | Some idx =>
           Some (Color.fromRgb
                   (Column.value (red (obj coloring)) (Z.to_nat idx))
                   (Column.value (green (obj coloring)) (Z.to_nat idx))
                   (Column.value (blue (obj coloring)) (Z.to_nat idx)))
       | None => None
       end)
    (fun _ => 1)
    (fun groupId =>
       match arrayGet (ids (obj grouping)) groupId with
       | Some id => inr (pretty id)
       | None => inl TypeError
       end).

(** The cached shape, mesh, coloring and grouping belong together: the
    shape was built from the other three. *)
Definition built (c : Cache) : Prop :=
  exists f s m col g,
    _shape c = Some s /\ _mesh c = Some m /\ _coloring c = Some col
    /\ _grouping c = Some g /\ obj s = shapeOf f m col g.

(** A cache that remembers parameters holds what was built for them. *)
Definition cacheConsistent (c : Cache) : Prop :=
  forall p, _props c = Some p -> built c.

End PlySpec.

(* ===================================================================== *)
(** * Sample data *)
(* ===================================================================== *)

Module PlySamples.
Import Ply.

(** A column read from a list of values. *)
Definition column (l : list Z) : nat -> Z := fun i => nth i l 0.

(** A unit square: four vertices with colors and the identifiers
    5, 7, 5, 9. *)
Definition square : PlyTable.t :=
  PlyTable.mk 4
    [("x", column [0; 1; 1; 0]); ("y", column [0; 0; 1; 1]);
     ("z", column [0; 0; 0; 0]);
     ("red", column [255; 0; 0; 10]); ("green", column [0; 255; 0; 20]);
     ("atomid", column [5; 7; 5; 9])].

(** The same with normals. *)
Definition squareWithNormals : PlyTable.t :=
  PlyTable.mk 4
    (PlyTable.properties square
     ++ [("nx", column [0; 0; 0; 0]); ("ny", column [0; 0; 0; 0]);
         ("nz", column [1; 1; 1; 1])]).

(** The square without its [x] property. *)
Definition squareWithoutX : PlyTable.t :=
  PlyTable.mk 4
    [("y", column [0; 0; 1; 1]); ("z", column [0; 0; 0; 0]);
     ("atomid", column [5; 7; 5; 9])].

(** Two vertices whose [atomid] column holds -1 and 3. *)
Definition negativeId : PlyTable.t :=
  PlyTable.mk 2
    [("x", column [0; 1]); ("y", column [0; 0]); ("z", column [0; 0]);
     ("atomid", column [-1; 3])].

(** One triangle row and one quadrilateral row. *)
Definition triangleAndQuad : PlyList.t :=
  PlyList.mk 2
    (fun i => nth i [PlyList.mkRow [0; 1; 2] 3; PlyList.mkRow [0; 1; 2; 3] 4]
                (PlyList.mkRow [] 0)).

(** Rows whose [count] is not the number of their entries: four entries
    with a count of 3, then three entries with a count of 4. *)
Definition miscounted : PlyList.t :=
  PlyList.mk 2
    (fun i => nth i [PlyList.mkRow [3; 2; 1; 0] 3; PlyList.mkRow [0; 1; 2] 4]
                (PlyList.mkRow [] 0)).

Definition squareFile : PlyFile.t :=
  PlyFile.mk 0 (Some square) (Some triangleAndQuad).

Definition brokenFile : PlyFile.t :=
  PlyFile.mk 1 (Some squareWithoutX) (Some triangleAndQuad).

Definition grey : Color.t := Color.mk 128 128 128.
Definition orange : Color.t := Color.mk 255 165 0.

Definition uniformNone : Props := mkProps (ColoringUniform grey) GroupingNone.
Definition orangeNone : Props := mkProps (ColoringUniform orange) GroupingNone.
Definition uniformByAtom : Props :=
  mkProps (ColoringUniform grey) (GroupingVertex "atomid").
Definition vertexByAtom : Props :=
  mkProps (ColoringVertex "red" "green" "blue") (GroupingVertex "atomid").

(** Stand-in for the computed normals. *)
Definition noNormals : list Z -> list (option Z) -> list Z := fun _ _ => [].

(** An engine whose typed arrays hold at most 2^32 - 1 cells. *)
Definition engineLimit : Z := 2 ^ 32 - 1.

(** A context that never asks for an update, and one that asks at the
    first checkpoint and is cancelled there. *)
Definition idle : RuntimeContext := mkCtx [] [].
Definition cancelled : RuntimeContext := mkCtx [true] [true].

Definition start : World := mkWorld (mkEnv idle []) emptyCache.

(** The world after a call, under a new context. *)
Definition resume (c : RuntimeContext) (w : World) : World :=
  mkWorld (mkEnv c (heap (env w))) (cache w).

(** A first request on a new getter, then either a request with another
    grouping that is cancelled at its first checkpoint, or a request for
    the file without [x]; and a later request that only changes the
    color. *)
Definition firstCall : (Error + option (Obj Shape)) * World :=
  getShape noNormals engineLimit squareFile uniformNone None start.

Definition cancelledCall : (Error + option (Obj Shape)) * World :=
  getShape noNormals engineLimit squareFile uniformByAtom None (resume cancelled (snd firstCall)).

Definition brokenCall : (Error + option (Obj Shape)) * World :=
  getShape noNormals engineLimit brokenFile uniformByAtom None (resume idle (snd firstCall)).

Definition laterCall (w : World) : (Error + option (Obj Shape)) * World :=
  getShape noNormals engineLimit squareFile orangeNone None (resume idle w).

(** After the cancelled request: the first request made again, and then
    a request that only changes the color. *)
Definition repeatedCall : (Error + option (Obj Shape)) * World :=
  getShape noNormals engineLimit squareFile uniformNone None
    (resume idle (snd cancelledCall)).

Definition recoloredCall : (Error + option (Obj Shape)) * World :=
  getShape noNormals engineLimit squareFile orangeNone None
    (resume idle (snd repeatedCall)).

End PlySamples.

(* ===================================================================== *)
(** * Runs of the yielding classes *)
(* ===================================================================== *)

Module TasksSpec.
Import Tasks.

(** The checkpoints at which a run suspended, given its decisions. *)
Fixpoint suspendedAt {A} (decisions : list bool) (clock : list A) : list A :=
  match decisions, clock with
  | d :: ds, t :: ts =>
      if d then t :: suspendedAt ds ts else suspendedAt ds ts
  | _, _ => []
  end.

(** How many checkpoints suspended. *)
Definition suspensions (decisions : list bool) : nat :=
  length (List.filter (fun d => d) decisions).

(** Each reading is at least 250 after the one before, starting from
    [last]. *)
Fixpoint spaced (last : Z) (l : list Z) : Prop :=
  match l with
  | [] => True
  | t :: r => 250 <= t - last /\ spaced t r
  end.

(** For [CheckYielding], whose [yield] reads the clock again: each
    [needsYield] reading is more than 250 after the [yield] reading of the
    suspension before. *)
Fixpoint spacedChecks (last : Z) (l : list (Z * Z)) : Prop :=
  match l with
  | [] => True
  | (t, t') :: r => 250 < t - last /\ spacedChecks t' r
  end.

End TasksSpec.

(* ===================================================================== *)
(** * mol-model-formats/shape/ply.ts: the parameter definition *)
(* ===================================================================== *)

Module PlyParams.
Import Ply.

(** [PD.Select(defaultValue, options, { label })] *)
Record Select := mkSelect {
  defaultValue : string;
  options : list (string * string);
  label : string
}.

(** What [createPlyShapeParams] returns besides [Mesh.Params]: the two
    [PD.MappedStatic] parameters with their default key and the
    parameters of their groups. *)
Record t := mk {
  coloringDefault : string;   (* 'vertex' or 'uniform' *)
  red : Select;
  green : Select;
  blue : Select;
  color : Color.t;            (* PD.Color(ColorNames.grey) *)
  groupingDefault : string;   (* 'vertex' or 'none' *)
  group : Select
}.

(** [names.includes(name)] *)
Definition includes (names : list string) (name : string) : bool :=
  existsb (String.eqb name) names.

(** A string used as a condition: the empty string is false. *)
Definition truthy (s : string) : bool := negb (String.eqb s "").

(** [createPlyShapeParams(vertex?)]; [grey] is [ColorNames.grey], a
    constant of mol-util/color/tables. *)
Definition createPlyShapeParams (grey : Color.t) (vertex : option PlyTable.t) : t :=
  let names :=
    match vertex with
    | Some v => PlyTable.propertyNames v
    | None => []
    end in
  let options := [("", "")] ++ List.map (fun name => (name, name)) names in
  let dGroup := if includes names "atomid" then "atomid" else "" in
  let dRed := if includes names "red" then "red" else "" in
  let dGreen := if includes names "green" then "green" else "" in
  let dBlue := if includes names "blue" then "blue" else "" in
  mk (if truthy dRed && truthy dGreen && truthy dBlue then "vertex" else "uniform")
     (mkSelect dRed options "Red Property")
     (mkSelect dGreen options "Green Property")
     (mkSelect dBlue options "Blue Property")
     grey
     (if truthy dGroup then "vertex" else "none")
     (mkSelect dGroup options "Group Property").

(** [export const PlyShapeParams = createPlyShapeParams()] *)
Definition PlyShapeParams (grey : Color.t) : t := createPlyShapeParams grey None.

(** The four selects of a definition. *)
Definition selects (d : t) : list Select := [red d; green d; blue d; group d].

End PlyParams.

(* ===================================================================== *)
(** * Requests and rebuilds *)
(* ===================================================================== *)

Module PlyRuns.
Import Ply PlySpec.

(** The request differs from the cached one in its dataset or in its
    grouping (or nothing is cached): [newMesh] of [getShape]. *)
Definition mustRebuild (c : Cache) (plyFile : PlyFile.t) (props : Props) : Prop :=
  match _plyFile c with
  | Some f => PlyFile.ref f <> PlyFile.ref plyFile
  | None => True
  end
  \/ match _props c with
     | Some p => grouping p <> grouping props
     | None => True
     end.

(** Whether the loops of [getMesh] consult the context at row [j]. *)
Definition pollAt (j : nat) : nat :=
  if Z.of_nat j mod 100000 =? 0 then 1%nat else 0%nat.

(** The rows [j < n] at which a loop of [getMesh] consults the context. *)
Definition pollsFrom (i n : nat) : nat :=
  length (List.filter (fun j => Z.of_nat j mod 100000 =? 0) (seq i n)).

(** The cache after a full rebuild. *)
Definition rebuiltCache (plyFile : PlyFile.t) (props : Props) (s : Obj Shape)
    (m : Obj Mesh.t) (col : Obj Coloring) (grp : Obj Grouping) : Cache :=
  mkCache (Some plyFile) (Some props) (Some s) (Some m) (Some col) (Some grp).

(** The color of row [i] under a coloring. *)
Definition rowColor (col : Coloring) (i : nat) : Color.t :=
  Color.fromRgb (Column.value (red col) i) (Column.value (green col) i)
    (Column.value (blue col) i).

(** A square with all three color channels and [atomid]. *)
Definition coloredSquare : PlyTable.t :=
  PlyTable.mk 4
    [("x", PlySamples.column [0; 1; 1; 0]); ("y", PlySamples.column [0; 0; 1; 1]);
     ("z", PlySamples.column [0; 0; 0; 0]);
     ("red", PlySamples.column [255; 0; 0; 10]);
     ("green", PlySamples.column [0; 255; 0; 20]);
     ("blue", PlySamples.column [0; 0; 255; 30]);
     ("atomid", PlySamples.column [5; 7; 5; 9])].

Definition coloredFile : PlyFile.t :=
  PlyFile.mk 2 (Some coloredSquare) (Some PlySamples.triangleAndQuad).

End PlyRuns.

(* ===================================================================== *)
(** * Properties of perf-tests/tasks.ts *)
(* ===================================================================== *)

Import Tasks.

(** The two strategies decide alike except at an elapsed time of exactly
    250 ms. *)
Lemma decisions_differ_only_at_budget (t last : Z) :
  t - last <> 250 ->
  snd (maybeAwaitable t (Yielding.mk last))
  = snd (checkThenYield t t (CheckYielding.mk last)).
Proof.
  intros Hne. unfold maybeAwaitable, checkThenYield, Yielding.yield,
    CheckYielding.needsYield. simpl.
  destruct (Z.ltb_spec (t - last) 250) as [Hlt|Hge];
    destruct (Z.gtb_spec (t - last) 250) as [Hgt|Hle]; simpl; auto; lia.
Qed.

Lemma run_agree (last : Z) (clock : list Z) :
  Forall (fun d => d <> 250) (elapsed last clock) ->
  runYielding (Yielding.mk last) clock
  = runCheckYielding (CheckYielding.mk last) (sameReading clock).
Proof.
  revert last. induction clock as [|t clock IH]; intros last Hb; [reflexivity|].
  simpl in Hb. inversion Hb as [|? ? Hne Hrest]; subst.
  simpl. unfold maybeAwaitable, checkThenYield, Yielding.yield,
    CheckYielding.needsYield, CheckYielding.yield. simpl.
  destruct (Z.ltb_spec (t - last) 250) as [Hlt|Hge];
    destruct (Z.gtb_spec (t - last) 250) as [Hgt|Hle]; try lia.
  - f_equal. apply IH. exact Hrest.
  - f_equal. apply IH. exact Hrest.
Qed.

(** C9 (as stated, refuted): with the single clock reading 250 the
    maybe-awaitable strategy suspends and the check-then-yield strategy
    does not, so the two do not suspend at the same checkpoints for
    every sequence of clock readings. *)
Lemma C9_strategies_differ_at_budget :
  ~ (forall clock : list Z,
        runYielding Yielding.new clock
        = runCheckYielding CheckYielding.new (sameReading clock)).
Proof.
  intros H. specialize (H [250]). vm_compute in H. discriminate H.
Qed.

(** C9 (amended): over any sequence of clock readings in which no
    checkpoint falls exactly 250 ms after the last suspension, and with
    a clock that does not advance between [needsYield] and [yield], the
    two strategies suspend at exactly the same checkpoints. *)
Theorem C9_strategies_agree_off_budget (clock : list Z) :
  Forall (fun d => d <> 250) (elapsed 0 clock) ->
  runYielding Yielding.new clock
  = runCheckYielding CheckYielding.new (sameReading clock).
Proof. apply run_agree. Qed.

Lemma C9_strategies_agree_off_budget_witness :
  Forall (fun d => d <> 250) (elapsed 0 [100; 251; 300; 600])
  /\ runYielding Yielding.new [100; 251; 300; 600]
     = runCheckYielding CheckYielding.new (sameReading [100; 251; 300; 600]).
Proof.
  assert (Hb : Forall (fun d => d <> 250) (elapsed 0 [100; 251; 300; 600])).
  { vm_compute. repeat constructor; discriminate. }
  split; [exact Hb | exact (C9_strategies_agree_off_budget _ Hb)].
Defined.


(* ===================================================================== *)
(** * Properties of mol-model-formats/shape/ply.ts *)
(* ===================================================================== *)

Import Ply PlySpec PlySamples.

(** Splitting conjunctions only, and closing a goal by running the code. *)
Ltac conj := match goal with |- _ /\ _ => split end.
Ltac by_evaluation := vm_compute; reflexivity.

(** ** Loops *)

Lemma forRange_snoc {X} (body : nat -> X -> X) (n i : nat) (s : X) :
  forRange i (S n) body s = body (i + n)%nat (forRange i n body s).
Proof.
  revert i s. induction n as [|n IH]; intros i s.
  - simpl. replace (i + 0)%nat with i by lia. reflexivity.
  - change (forRange i (S (S n)) body s)
      with (forRange (S i) (S n) body (body i s)).
    rewrite IH. replace (S i + n)%nat with (i + S n)%nat by lia.
    reflexivity.
Qed.

(** A loop invariant [P k s]: the state [s] after the turns below [k]. *)
Lemma forRange_invariant {X} (P : nat -> X -> Prop) (body : nat -> X -> X)
    (n : nat) (s : X) :
  P 0%nat s ->
  (forall j s, (j < n)%nat -> P j s -> P (S j) (body j s)) ->
  P n (forRange 0 n body s).
Proof.
  intros H0 Hstep. induction n as [|n IH]; [exact H0|].
  rewrite forRange_snoc. simpl. apply Hstep; [lia|].
  apply IH. intros j s' Hj. apply Hstep. lia.
Qed.

Lemma shouldUpdate_cases (e : Env) :
  exists u e1, shouldUpdate e = (inr u, e1) /\ heap e1 = heap e
               /\ cancellations (ctx e1) = cancellations (ctx e).
Proof.
  unfold shouldUpdate. destruct e as [[us cs] h]; simpl.
  destruct us as [|u us]; eauto.
Qed.

Lemma update_turn (current max : nat) (message : string) (e : Env) :
  turnOf (update current max message) tt e.
Proof.
  unfold turnOf, update, neverCancelled. destruct e as [[us cs] h]; simpl.
  destruct cs as [|[|] cs]; simpl.
  - eexists; split; [|split; [|left; reflexivity]]; auto.
  - eexists; split; [|split; [|right; split; [reflexivity|]]]; simpl; auto.
    + intros H. inversion H; discriminate.
    + intros H. inversion H; discriminate.
  - eexists; split; [|split; [|left; reflexivity]]; simpl; auto.
    intros H. inversion H; assumption.
Qed.

Lemma checkpoint_turn (i il : nat) (what : string) (e : Env) :
  turnOf (checkpoint i il what) tt e.
Proof.
  unfold checkpoint. destruct (Z.of_nat i mod 100000 =? 0).
  - unfold turnOf, bind.
    destruct (shouldUpdate_cases e) as (u & e1 & -> & Hh & Hc).
    destruct u.
    + destruct (update_turn i il (what +:+ pretty (Z.of_nat i)) e1)
        as (e2 & Hh2 & Hq & Hr).
      exists e2. unfold neverCancelled in *. rewrite Hc in *.
      split; [congruence|]. split; [exact Hq|exact Hr].
    + exists e1. unfold neverCancelled. rewrite Hc.
      split; [exact Hh|]. split; [auto|left; reflexivity].
  - exists e. split; [reflexivity|]. split; [auto|left; reflexivity].
Qed.

Lemma forTask_turns {X} (body : nat -> X -> Task Env X) (step : nat -> X -> X) :
  (forall j s e, turnOf (body j s) (step j s) e) ->
  forall n i s e, turnOf (forTask i n body s) (forRange i n step s) e.
Proof.
  intros Hbody. induction n as [|n IH]; intros i s e.
  - exists e. split; [reflexivity|]. split; [auto|left; reflexivity].
  - simpl. unfold turnOf, bind.
    destruct (Hbody i s e) as (e1 & Hh1 & Hq1 & [-> | [-> Hnq]]).
    + destruct (IH (S i) (step i s) e1) as (e2 & Hh2 & Hq2 & Hr).
      exists e2. split; [congruence|]. split; [auto|].
      destruct Hr as [Hr | [Hr Hnq]]; [left; exact Hr|right].
      split; [exact Hr|]. intros Hq. apply Hnq. apply Hq1. exact Hq.
    + exists e1. split; [exact Hh1|]. split; [exact Hq1|right; auto].
Qed.

(** ** The two loops of [getMesh] *)

Lemma triples_cons (c : Column.t * Column.t * Column.t) (i n : nat) :
  triples c i (S n) = triples c i 1 ++ triples c (S i) n.
Proof. destruct c as [[a b] c]. reflexivity. Qed.

Lemma optTriples_cons (c : option (Column.t * Column.t * Column.t)) (i n : nat) :
  optTriples c i (S n) = optTriples c i 1 ++ optTriples c (S i) n.
Proof. destruct c as [c|]; [apply triples_cons|reflexivity]. Qed.

Lemma triangles_cons (face : PlyList.t) (i n : nat) :
  triangles face i (S n) = triangle face i ++ triangles face (S i) n.
Proof. reflexivity. Qed.

Lemma vertexLoop_pure (c : Column.t * Column.t * Column.t)
    (n : option (Column.t * Column.t * Column.t)) (groupIds : list Z)
    (k i : nat) (st : MeshBuilder.State) :
  forRange i k (vertexStep c n groupIds) st
  = MeshBuilder.mkState
      (MeshBuilder.vertices st ++ triples c i k)
      (MeshBuilder.normals st ++ optTriples n i k)
      (MeshBuilder.indices st)
      (MeshBuilder.groups st ++ groupReads groupIds i k).
Proof.
  revert i st. induction k as [|k IH]; intros i st.
  - destruct st, c as [[? ?] ?], n as [[[? ?] ?]|]; simpl;
      rewrite ?app_nil_r; reflexivity.
  - change (forRange i (S k) (vertexStep c n groupIds) st)
      with (forRange (S i) k (vertexStep c n groupIds)
              (vertexStep c n groupIds i st)).
    rewrite IH, triples_cons, optTriples_cons. unfold vertexStep; simpl.
    rewrite <- !app_assoc. reflexivity.
Qed.

Lemma faceLoop_pure (face : PlyList.t) (k i : nat) (st : MeshBuilder.State) :
  forRange i k (faceStep face) st
  = MeshBuilder.mkState (MeshBuilder.vertices st) (MeshBuilder.normals st)
      (MeshBuilder.indices st ++ triangles face i k) (MeshBuilder.groups st).
Proof.
  revert i st. induction k as [|k IH]; intros i st.
  - destruct st; simpl. rewrite app_nil_r. reflexivity.
  - change (forRange i (S k) (faceStep face) st)
      with (forRange (S i) k (faceStep face) (faceStep face i st)).
    rewrite IH, triangles_cons. unfold faceStep; simpl.
    rewrite <- app_assoc. reflexivity.
Qed.

Lemma bind_turn {X Y} (t : Task Env X) (v : X) (k : X -> Task Env Y) (w : Y)
    (e : Env) :
  turnOf t v e -> (forall e1, turnOf (k v) w e1) -> turnOf (bind t k) w e.
Proof.
  intros (e1 & Hh1 & Hq1 & Ht) Hk. unfold turnOf, bind.
  destruct Ht as [-> | [-> Hnq]].
  - destruct (Hk e1) as (e2 & Hh2 & Hq2 & Hr). exists e2.
    split; [congruence|]. split; [auto|].
    destruct Hr as [Hr | [Hr Hnq]]; [left; exact Hr|right].
    split; [exact Hr|]. intros Hq. apply Hnq, Hq1, Hq.
  - exists e1. split; [exact Hh1|]. split; [exact Hq1|right; auto].
Qed.

Lemma ret_turn {X} (v : X) (e : Env) : turnOf (ret v) v e.
Proof. exists e. split; [reflexivity|]. split; [auto|left; reflexivity]. Qed.

Lemma addVertex_turn (x y z : Column.t)
    (n : option (Column.t * Column.t * Column.t)) (groupIds : list Z)
    (il i : nat) (st : MeshBuilder.State) (e : Env) :
  turnOf (addVertex x y z n groupIds il i st)
         (vertexStep (x, y, z) n groupIds i st) e.
Proof.
  unfold addVertex. eapply bind_turn; [apply checkpoint_turn|].
  intros e1. unfold vertexStep, ChunkedArray.add3, ChunkedArray.add.
  destruct n as [[[nx ny] nz]|]; simpl; rewrite ?app_nil_r; apply ret_turn.
Qed.

Lemma addFace_turn (face : PlyList.t) (il i : nat) (st : MeshBuilder.State)
    (e : Env) :
  turnOf (addFace face il i st) (faceStep face i st) e.
Proof.
  unfold addFace. eapply bind_turn; [apply checkpoint_turn|].
  intros e1. unfold faceStep, triangle, ChunkedArray.add3.
  destruct (PlyList.count (PlyList.value face i) =? 3).
  - apply ret_turn.
  - destruct st; simpl. rewrite app_nil_r. apply ret_turn.
Qed.

(** ** [getMesh], case by case *)

Lemma coordinates_None (vertex : PlyTable.t) :
  coordinates vertex = None <->
  PlyTable.getProperty vertex "x" = None
  \/ PlyTable.getProperty vertex "y" = None
  \/ PlyTable.getProperty vertex "z" = None.
Proof.
  unfold coordinates.
  destruct (PlyTable.getProperty vertex "x"), (PlyTable.getProperty vertex "y"),
    (PlyTable.getProperty vertex "z"); split; intros H; auto; try discriminate;
    destruct H as [H|[H|H]]; discriminate.
Qed.

Lemma getMesh_missing (fn : list Z -> list (option Z) -> list Z)
    (vertex : PlyTable.t) (face : PlyList.t) (groupIds : list Z)
    (mesh : option (Obj Mesh.t)) (e : Env) :
  coordinates vertex = None ->
  getMesh fn vertex face groupIds mesh e
  = (inl MissingCoordinateProperties, mkEnv (ctx e) (heap e ++ [KBuilderState])).
Proof.
  unfold coordinates, getMesh, bind, MeshBuilder.createState, alloc, ret, throw.
  simpl.
  destruct (PlyTable.getProperty vertex "x"), (PlyTable.getProperty vertex "y"),
    (PlyTable.getProperty vertex "z"); intros H; try discriminate; reflexivity.
Qed.

Lemma getMesh_present (fn : list Z -> list (option Z) -> list Z)
    (vertex : PlyTable.t) (face : PlyList.t) (groupIds : list Z)
    (mesh : option (Obj Mesh.t)) (e : Env)
    (c : Column.t * Column.t * Column.t) :
  coordinates vertex = Some c ->
  exists e1,
    (neverCancelled e -> neverCancelled e1)
    /\ ((getMesh fn vertex face groupIds mesh e
         = (inr (mkObj (S (length (heap e)))
                   (builtMesh fn vertex face groupIds c)), e1)
         /\ heap e1 = heap e ++ [KBuilderState; KMesh])
        \/ (getMesh fn vertex face groupIds mesh e = (inl Aborted, e1)
            /\ heap e1 = heap e ++ [KBuilderState]
            /\ ~ neverCancelled e)).
Proof.
  intros Hc. unfold coordinates in Hc. unfold getMesh.
  destruct (PlyTable.getProperty vertex "x") as [x|]; [|discriminate].
  destruct (PlyTable.getProperty vertex "y") as [y|]; [|discriminate].
  destruct (PlyTable.getProperty vertex "z") as [z|]; [|discriminate].
  injection Hc as <-.
  set (n := match PlyTable.getProperty vertex "nx",
                  PlyTable.getProperty vertex "ny",
                  PlyTable.getProperty vertex "nz" with
            | Some nx, Some ny, Some nz => Some (nx, ny, nz)
            | _, _, _ => None
            end).
  assert (Hn : n = suppliedNormals vertex) by reflexivity.
  cbv [bind MeshBuilder.createState alloc ret obj].
  match goal with
  | |- context [forTask 0 ?k ?b ?s ?e0] =>
      destruct (forTask_turns _ _
                  (addVertex_turn x y z n groupIds (PlyTable.rowCount vertex))
                  k 0%nat s e0) as (e1 & Hh1 & Hq1 & Hr1)
  end.
  cbn [heap ctx] in Hh1.
  assert (Hq1' : neverCancelled e -> neverCancelled e1) by exact Hq1.
  destruct Hr1 as [-> | [-> Hnq]];
    [|exists e1; split; [exact Hq1'|right; split; [reflexivity|split; [exact Hh1|exact Hnq]]]].
  match goal with
  | |- context [forTask 0 ?k ?b ?s e1] =>
      destruct (forTask_turns _ _ (addFace_turn face (PlyList.rowCount face))
                  k 0%nat s e1) as (e2 & Hh2 & Hq2 & Hr2)
  end.
  destruct Hr2 as [-> | [-> Hnq]];
    [|exists e2; split; [auto|right; split; [reflexivity|split; [congruence|auto]]]].
  exists (mkEnv (ctx e2) (heap e2 ++ [KMesh])).
  split; [intros Hq; apply Hq2, Hq1', Hq|]. left.
  rewrite faceLoop_pure, vertexLoop_pure.
  cbn [MeshBuilder.vertices MeshBuilder.normals MeshBuilder.indices
       MeshBuilder.groups app].
  assert (Hlen : length (heap e2) = S (length (heap e))).
  { rewrite Hh2, Hh1, length_app. simpl. lia. }
  assert (Hheap : heap e2 ++ [KMesh] = heap e ++ [KBuilderState; KMesh]).
  { rewrite Hh2, Hh1, <- app_assoc. reflexivity. }
  unfold builtMesh, computeNormals, ret, Mesh.setNormalsComputed,
    Mesh.setNormalBuffer, MeshBuilder.getMesh, alloc.
  cbn [obj addr MeshBuilder.vertices MeshBuilder.normals MeshBuilder.indices
       MeshBuilder.groups Mesh.vertexCount Mesh.triangleCount Mesh.vertexBuffer
       Mesh.indexBuffer Mesh.normalBuffer Mesh.groupBuffer Mesh.normalsComputed].
  rewrite <- Hn, Hlen, Hheap.
  destruct n as [[[nx ny] nz]|]; (split; reflexivity).
Qed.

Lemma getMesh_returns (fn : list Z -> list (option Z) -> list Z)
    (vertex : PlyTable.t) (face : PlyList.t) (groupIds : list Z)
    (mesh : option (Obj Mesh.t)) (e e' : Env) (m : Obj Mesh.t) :
  getMesh fn vertex face groupIds mesh e = (inr m, e') ->
  exists c,
    coordinates vertex = Some c
    /\ m = mkObj (S (length (heap e))) (builtMesh fn vertex face groupIds c)
    /\ heap e' = heap e ++ [KBuilderState; KMesh].
Proof.
  intros H. destruct (coordinates vertex) as [c|] eqn:Hc.
  - destruct (getMesh_present fn vertex face groupIds mesh e c Hc)
      as (e1 & _ & [[Hr Hh] | [Hr _]]); rewrite Hr in H.
    + injection H as <- <-. exists c. auto.
    + discriminate.
  - rewrite (getMesh_missing fn vertex face groupIds mesh e Hc) in H.
    discriminate.
Qed.

Lemma getMesh_completes (fn : list Z -> list (option Z) -> list Z)
    (vertex : PlyTable.t) (face : PlyList.t) (groupIds : list Z)
    (mesh : option (Obj Mesh.t)) (e : Env) (c : Column.t * Column.t * Column.t) :
  coordinates vertex = Some c -> neverCancelled e ->
  exists m e', getMesh fn vertex face groupIds mesh e = (inr m, e').
Proof.
  intros Hc Hq.
  destruct (getMesh_present fn vertex face groupIds mesh e c Hc)
    as (e1 & _ & [[Hr _] | (_ & _ & Hn)]); [eauto|].
  destruct (Hn Hq).
Qed.

(** ** Reading the buffers *)

Lemma triples_length (c : Column.t * Column.t * Column.t) (n s : nat) :
  length (triples c s n) = (3 * n)%nat.
Proof.
  revert s. induction n as [|n IH]; intros s; [destruct c as [[? ?] ?]; reflexivity|].
  rewrite triples_cons, length_app, IH. destruct c as [[? ?] ?]. simpl. lia.
Qed.

Lemma triples_lookup (a b c : Column.t) (n s i : nat) :
  (i < n)%nat ->
  triples (a, b, c) s n !! (3 * i)%nat = Some (Column.value a (s + i)%nat)
  /\ triples (a, b, c) s n !! (3 * i + 1)%nat = Some (Column.value b (s + i)%nat)
  /\ triples (a, b, c) s n !! (3 * i + 2)%nat = Some (Column.value c (s + i)%nat).
Proof.
  revert s i. induction n as [|n IH]; intros s i Hi; [lia|].
  rewrite triples_cons. destruct i as [|i].
  - replace (s + 0)%nat with s by lia. simpl. auto.
  - replace (3 * S i)%nat with (3 + 3 * i)%nat by lia.
    replace (s + S i)%nat with (S s + i)%nat by lia.
    destruct (IH (S s) i ltac:(lia)) as (H0 & H1 & H2).
    change (triples (a, b, c) s 1)
      with [Column.value a s; Column.value b s; Column.value c s].
    repeat split.
    + exact H0.
    + replace (3 + 3 * i + 1)%nat with (3 + (3 * i + 1))%nat by lia. exact H1.
    + replace (3 + 3 * i + 2)%nat with (3 + (3 * i + 2))%nat by lia. exact H2.
Qed.

Lemma groupReads_lookup (groupIds : list Z) (n i : nat) :
  (i < n)%nat -> groupReads groupIds 0 n !! i = Some (groupIds !! i).
Proof.
  intros Hi. unfold groupReads.
  change (List.map (fun j => groupIds !! j) (seq 0 n))
    with ((fun j => groupIds !! j) <$> seq 0 n).
  rewrite list_lookup_fmap, lookup_seq_lt by exact Hi. reflexivity.
Qed.

Lemma triangle_wf (face : PlyList.t) (j : nat) :
  PlyList.count (PlyList.value face j)
  = Z.of_nat (length (PlyList.entries (PlyList.value face j))) ->
  triangle face j = materialized face j.
Proof.
  unfold triangle, materialized. intros ->.
  destruct (PlyList.entries (PlyList.value face j)) as [|a [|b [|c [|d l]]]];
    try reflexivity.
  simpl length.
  destruct (Z.eqb_spec (Z.of_nat (S (S (S (S (length l)))))) 3) as [H|H];
    [lia|reflexivity].
Qed.

Lemma triangles_wf (face : PlyList.t) (n s : nat) :
  (forall j, (s <= j < s + n)%nat ->
     PlyList.count (PlyList.value face j)
     = Z.of_nat (length (PlyList.entries (PlyList.value face j)))) ->
  triangles face s n = flat_map (materialized face) (seq s n).
Proof.
  revert s. induction n as [|n IH]; intros s Hwf; [reflexivity|].
  rewrite triangles_cons. simpl. rewrite triangle_wf by (apply Hwf; lia).
  f_equal. apply IH. intros j Hj. apply Hwf. lia.
Qed.

Lemma materialized_length (face : PlyList.t) (j : nat) :
  length (materialized face j) = if isTriangle face j then 3%nat else 0%nat.
Proof.
  unfold materialized, isTriangle.
  destruct (Nat.eqb_spec (length (PlyList.entries (PlyList.value face j))) 3)
    as [H|H]; [|reflexivity].
  rewrite length_map. exact H.
Qed.

Lemma materialized_count (face : PlyList.t) (n s : nat) :
  length (flat_map (materialized face) (seq s n))
  = (3 * length (List.filter (isTriangle face) (seq s n)))%nat.
Proof.
  revert s. induction n as [|n IH]; intros s; [reflexivity|].
  simpl. rewrite length_app, IH, materialized_length.
  destruct (isTriangle face s); simpl; lia.
Qed.

(** ** Claims about [getMesh] *)

(** C6 (as stated, refuted): it is not the case that a build on a vertex
    table without coordinates fails before anything is allocated; on the
    square without [x] the error comes after the builder state, with its
    four buffers, has been created. *)
Lemma C6_builder_state_allocated_before_check :
  ~ (forall (fn : list Z -> list (option Z) -> list Z) (vertex : PlyTable.t)
       (face : PlyList.t) (groupIds : list Z) (mesh : option (Obj Mesh.t))
       (e : Env),
        coordinates vertex = None ->
        exists e', getMesh fn vertex face groupIds mesh e
                   = (inl MissingCoordinateProperties, e')
                   /\ heap e' = heap e).
Proof.
  intros H.
  destruct (H noNormals squareWithoutX triangleAndQuad [] None (mkEnv idle [])
              eq_refl) as (e' & Hr & Hh).
  vm_compute in Hr. injection Hr as <-. discriminate Hh.
Qed.

(** C6 (amended): if any of [x], [y], [z] is absent from the vertex table,
    the build fails with the missing-coordinate error before any
    checkpoint (the context is not consulted, so nothing has suspended)
    and before any row is read or appended; the only object created by
    then is the empty builder state. *)
Theorem C6_missing_coordinates_fail_fast
    (fn : list Z -> list (option Z) -> list Z) (vertex : PlyTable.t)
    (face : PlyList.t) (groupIds : list Z) (mesh : option (Obj Mesh.t))
    (e : Env) :
  PlyTable.getProperty vertex "x" = None
  \/ PlyTable.getProperty vertex "y" = None
  \/ PlyTable.getProperty vertex "z" = None ->
  getMesh fn vertex face groupIds mesh e
  = (inl MissingCoordinateProperties, mkEnv (ctx e) (heap e ++ [KBuilderState])).
Proof.
  intros H. apply getMesh_missing. apply coordinates_None. exact H.
Qed.

Lemma C6_missing_coordinates_fail_fast_witness :
  getMesh noNormals squareWithoutX triangleAndQuad [5; 7; 5; 9] None
    (mkEnv cancelled [])
  = (inl MissingCoordinateProperties, mkEnv cancelled [KBuilderState]).
Proof.
  exact (C6_missing_coordinates_fail_fast noNormals squareWithoutX
           triangleAndQuad [5; 7; 5; 9] None (mkEnv cancelled [])
           (or_introl eq_refl)).
Defined.

Lemma triangle_length (face : PlyList.t) (j : nat) :
  length (triangle face j) = if hasCount3 face j then 3%nat else 0%nat.
Proof.
  unfold triangle, hasCount3.
  destruct (PlyList.count (PlyList.value face j) =? 3); reflexivity.
Qed.

Lemma triangles_count (face : PlyList.t) (n s : nat) :
  length (triangles face s n)
  = (3 * length (List.filter (hasCount3 face) (seq s n)))%nat.
Proof.
  revert s. induction n as [|n IH]; intros s; [reflexivity|].
  rewrite triangles_cons, length_app, IH, triangle_length. simpl.
  destruct (hasCount3 face s); simpl; lia.
Qed.

(** C7: the index buffer of the mesh a build returns is, in row order,
    what the face rows whose [count] is exactly 3 contribute, each the
    reads [entries[0]], [entries[1]], [entries[2]]; a row with any other
    count adds nothing, whatever its entries; the triangle count is the
    number of rows whose [count] is 3, a third of the length of the index
    buffer.  Rows of another arity raise nothing: with coordinates
    present and no cancellation the build returns whatever the rows. *)
Theorem C7_only_triangles_materialized
    (fn : list Z -> list (option Z) -> list Z) (vertex : PlyTable.t)
    (face : PlyList.t) (groupIds : list Z) (mesh : option (Obj Mesh.t))
    (e : Env) :
  (forall m e',
      getMesh fn vertex face groupIds mesh e = (inr m, e') ->
      Mesh.indexBuffer (obj m) = triangles face 0 (PlyList.rowCount face)
      /\ Mesh.triangleCount (obj m)
         = length (List.filter (hasCount3 face) (seq 0 (PlyList.rowCount face)))
      /\ length (Mesh.indexBuffer (obj m))
         = (3 * Mesh.triangleCount (obj m))%nat)
  /\ (forall j,
        triangle face j
        = if hasCount3 face j
          then [PlyList.entries (PlyList.value face j) !! 0%nat;
                PlyList.entries (PlyList.value face j) !! 1%nat;
                PlyList.entries (PlyList.value face j) !! 2%nat]
          else [])
  /\ (forall c, coordinates vertex = Some c -> neverCancelled e ->
        exists m e', getMesh fn vertex face groupIds mesh e = (inr m, e')).
Proof.
  split; [|split].
  - intros m e' H.
    destruct (getMesh_returns _ _ _ _ _ _ _ _ H) as (c & _ & -> & _).
    cbn [obj]. unfold builtMesh.
    cbn [Mesh.indexBuffer Mesh.triangleCount].
    assert (Hcount : Nat.div (length (triangles face 0 (PlyList.rowCount face))) 3
                     = length (List.filter (hasCount3 face)
                                 (seq 0 (PlyList.rowCount face)))).
    { rewrite triangles_count, Nat.mul_comm. apply Nat.div_mul. lia. }
    split; [reflexivity|]. split; [exact Hcount|].
    rewrite Hcount. apply triangles_count.
  - intros j. reflexivity.
  - intros c Hc Hq. eapply getMesh_completes; eauto.
Qed.

Lemma C7_only_triangles_materialized_witness :
  exists m e',
    getMesh noNormals square triangleAndQuad [5; 7; 5; 9] None (mkEnv idle [])
    = (inr m, e')
    /\ Mesh.indexBuffer (obj m) = [Some 0; Some 1; Some 2]
    /\ Mesh.triangleCount (obj m) = 1%nat.
Proof.
  destruct (C7_only_triangles_materialized noNormals square triangleAndQuad
              [5; 7; 5; 9] None (mkEnv idle []))
    as (Hbuf & _ & Hret).
  destruct (Hret _ eq_refl ltac:(constructor)) as (m & e' & Hm).
  exists m, e'. split; [exact Hm|].
  destruct (Hbuf m e' Hm) as (Hi & Hc & _). split; [exact Hi|exact Hc].
Defined.

(** Where the [count] of every row is the number of its entries, the
    index buffer holds the entries of exactly the rows with three
    entries. *)
Lemma getMesh_wellFormed_faces
    (fn : list Z -> list (option Z) -> list Z) (vertex : PlyTable.t)
    (face : PlyList.t) (groupIds : list Z) (mesh : option (Obj Mesh.t))
    (e e' : Env) (m : Obj Mesh.t) :
  wfFace face ->
  getMesh fn vertex face groupIds mesh e = (inr m, e') ->
  Mesh.indexBuffer (obj m)
  = flat_map (materialized face) (seq 0 (PlyList.rowCount face))
  /\ Mesh.triangleCount (obj m)
     = length (List.filter (isTriangle face) (seq 0 (PlyList.rowCount face))).
Proof.
  intros Hwf H.
  destruct (getMesh_returns _ _ _ _ _ _ _ _ H) as (c & _ & -> & _).
  cbn [obj]. unfold builtMesh.
  cbn [Mesh.indexBuffer Mesh.triangleCount].
  rewrite triangles_wf by (intros j Hj; apply Hwf; lia).
  split; [reflexivity|].
  rewrite materialized_count, Nat.mul_comm. apply Nat.div_mul. lia.
Qed.

(** It is [count] that decides, not the number of entries: a row of four
    entries with a count of 3 gives its first three, a row of three
    entries with a count of 4 gives nothing. *)
Lemma getMesh_miscounted :
  exists m e',
    getMesh noNormals square miscounted [5; 7; 5; 9] None (mkEnv idle [])
    = (inr m, e')
    /\ Mesh.indexBuffer (obj m) = [Some 3; Some 2; Some 1]
    /\ Mesh.triangleCount (obj m) = 1%nat
    /\ flat_map (materialized miscounted) (seq 0 (PlyList.rowCount miscounted))
       = [Some 0; Some 1; Some 2].
Proof.
  eexists _, _. split; [by_evaluation|]. repeat conj; by_evaluation.
Qed.

(** C10: the mesh a build returns has one vertex per row, in row order:
    vertex [i] holds the position [(x(i), y(i), z(i))], entry [i] of the
    group buffer is the read [groupIds[i]], and when [nx], [ny] and [nz]
    are all present normal [i] is [(nx(i), ny(i), nz(i))]; with
    coordinates present and no cancellation the build does return. *)
Theorem C10_vertex_rows_in_order
    (fn : list Z -> list (option Z) -> list Z) (vertex : PlyTable.t)
    (face : PlyList.t) (groupIds : list Z) (mesh : option (Obj Mesh.t))
    (e : Env) :
  (forall m e',
      getMesh fn vertex face groupIds mesh e = (inr m, e') ->
      exists x y z,
        PlyTable.getProperty vertex "x" = Some x
        /\ PlyTable.getProperty vertex "y" = Some y
        /\ PlyTable.getProperty vertex "z" = Some z
        /\ Mesh.vertexCount (obj m) = PlyTable.rowCount vertex
        /\ length (Mesh.groupBuffer (obj m)) = PlyTable.rowCount vertex
        /\ forall i, (i < PlyTable.rowCount vertex)%nat ->
             Mesh.vertexBuffer (obj m) !! (3 * i)%nat = Some (Column.value x i)
             /\ Mesh.vertexBuffer (obj m) !! (3 * i + 1)%nat = Some (Column.value y i)
             /\ Mesh.vertexBuffer (obj m) !! (3 * i + 2)%nat = Some (Column.value z i)
             /\ Mesh.groupBuffer (obj m) !! i = Some (groupIds !! i)
             /\ forall nx ny nz,
                  PlyTable.getProperty vertex "nx" = Some nx ->
                  PlyTable.getProperty vertex "ny" = Some ny ->
                  PlyTable.getProperty vertex "nz" = Some nz ->
                  Mesh.normalBuffer (obj m) !! (3 * i)%nat
                  = Some (Column.value nx i)
                  /\ Mesh.normalBuffer (obj m) !! (3 * i + 1)%nat
                     = Some (Column.value ny i)
                  /\ Mesh.normalBuffer (obj m) !! (3 * i + 2)%nat
                     = Some (Column.value nz i))
  /\ (forall c, coordinates vertex = Some c -> neverCancelled e ->
        exists m e', getMesh fn vertex face groupIds mesh e = (inr m, e')).
Proof.
  split; [|intros c Hc Hq; eapply getMesh_completes; eauto].
  intros m e' H.
  destruct (getMesh_returns _ _ _ _ _ _ _ _ H) as (c & Hc & -> & _).
  unfold coordinates in Hc.
  destruct (PlyTable.getProperty vertex "x") as [x|]; [|discriminate].
  destruct (PlyTable.getProperty vertex "y") as [y|]; [|discriminate].
  destruct (PlyTable.getProperty vertex "z") as [z|]; [|discriminate].
  injection Hc as <-. exists x, y, z.
  cbn [obj]. unfold builtMesh.
  cbn [Mesh.vertexCount Mesh.vertexBuffer Mesh.groupBuffer Mesh.normalBuffer].
  repeat split; try reflexivity.
  - rewrite triples_length, Nat.mul_comm. apply Nat.div_mul. lia.
  - unfold groupReads. rewrite length_map, length_seq. reflexivity.
  - apply (triples_lookup x y z _ 0 i); assumption.
  - apply (triples_lookup x y z _ 0 i); assumption.
  - apply (triples_lookup x y z _ 0 i); assumption.
  - apply groupReads_lookup; assumption.
  - unfold suppliedNormals. rewrite H1, H2, H3. cbn [optTriples].
    apply (triples_lookup nx ny nz _ 0 i); assumption.
  - unfold suppliedNormals. rewrite H1, H2, H3. cbn [optTriples].
    apply (triples_lookup nx ny nz _ 0 i); assumption.
  - unfold suppliedNormals. rewrite H1, H2, H3. cbn [optTriples].
    apply (triples_lookup nx ny nz _ 0 i); assumption.
Qed.

(** ** Identifiers and the dense map *)

Lemma toUint32_range (z : Z) : 0 <= toUint32 z < 2 ^ 32.
Proof. unfold toUint32. apply Z.mod_pos_bound. lia. Qed.

Lemma toUint32_small (z : Z) : 0 <= z < 2 ^ 32 -> toUint32 z = z.
Proof. apply Z.mod_small. Qed.

Lemma uint32Set_nonneg (a : list Z) (i v : Z) :
  0 <= i -> uint32Set a i v = <[Z.to_nat i := toUint32 v]> a.
Proof.
  intros Hi. unfold uint32Set.
  destruct (Z.ltb_spec i 0) as [H|H]; [lia|reflexivity].
Qed.

Lemma arrayGet_nonneg {A} (a : list A) (i : Z) :
  0 <= i -> arrayGet a i = a !! Z.to_nat i.
Proof.
  intros Hi. unfold arrayGet.
  destruct (Z.ltb_spec i 0) as [H|H]; [lia|reflexivity].
Qed.

Lemma getProperty_rowCount (vertex : PlyTable.t) (name : string) (c : Column.t) :
  PlyTable.getProperty vertex name = Some c ->
  Column.rowCount c = PlyTable.rowCount vertex.
Proof.
  unfold PlyTable.getProperty.
  destruct (find _ _) as [[? f]|]; [|discriminate].
  intros H. injection H as <-. reflexivity.
Qed.

Lemma newUint32Array_inr (lim n : Z) (a : list Z) :
  newUint32Array lim n = inr a ->
  0 <= n <= lim /\ a = replicate (Z.to_nat n) 0.
Proof.
  unfold newUint32Array.
  destruct (Z.ltb_spec n 0) as [H1|H1]; [discriminate|].
  destruct (Z.ltb_spec lim n) as [H2|H2]; [discriminate|].
  cbn. intros H. injection H as <-. split; [lia|reflexivity].
Qed.


Lemma newUint32Array_too_long (lim n : Z) :
  lim < n -> newUint32Array lim n = inl InvalidArrayLength.
Proof.
  intros H. unfold newUint32Array.
  destruct (Z.ltb_spec lim n) as [H2|H2]; [|lia].
  rewrite orb_true_r. reflexivity.
Qed.

Lemma fillSerial_spec (n : nat) :
  length (fillSerial (replicate n 0)) = n
  /\ forall i, (i < n)%nat ->
       fillSerial (replicate n 0) !! i = Some (toUint32 (Z.of_nat i)).
Proof.
  unfold fillSerial. rewrite length_replicate.
  apply (forRange_invariant
           (fun k a => length a = n
                       /\ forall i, (i < k)%nat ->
                            a !! i = Some (toUint32 (Z.of_nat i)))).
  - split; [apply length_replicate|]. intros i Hi. lia.
  - intros j a Hj [Hlen Hlook].
    rewrite uint32Set_nonneg by lia. rewrite Nat2Z.id. split.
    + rewrite length_insert. exact Hlen.
    + intros i Hi. destruct (decide (i = j)) as [->|Hne].
      * apply list_lookup_insert_eq. lia.
      * rewrite list_lookup_insert_ne by congruence. apply Hlook. lia.
Qed.

(** The identifier of row [i]. *)
Lemma toUint32Array_spec (c : Column.t) :
  length (Column.toUint32Array c) = Column.rowCount c
  /\ forall i, (i < Column.rowCount c)%nat ->
       Column.toUint32Array c !! i = Some (toUint32 (Column.value c i)).
Proof.
  unfold Column.toUint32Array. split.
  - rewrite length_map, length_seq. reflexivity.
  - intros i Hi.
    change (List.map (fun i => toUint32 (Column.value c i)) (seq 0 (Column.rowCount c)))
      with ((fun i => toUint32 (Column.value c i)) <$> seq 0 (Column.rowCount c)).
    rewrite list_lookup_fmap, lookup_seq_lt by exact Hi. reflexivity.
Qed.

Lemma fold_max_spec (l : list Z) (x : Z) :
  x <= fold_left Z.max l x
  /\ (forall y, y ∈ l -> y <= fold_left Z.max l x)
  /\ (fold_left Z.max l x = x \/ fold_left Z.max l x ∈ l).
Proof.
  revert x. induction l as [|a l IH]; intros x; simpl.
  - split; [lia|]. split; [|left; reflexivity].
    intros y Hy. inversion Hy.
  - destruct (IH (Z.max x a)) as (Hge & Hall & Hin). split; [lia|]. split.
    + intros y Hy. apply elem_of_cons in Hy as [->|Hy]; [lia|auto].
    + destruct Hin as [Heq|Hin]; [|right; apply elem_of_cons; auto].
      rewrite Heq. destruct (Z.max_spec x a) as [[_ ->]|[_ ->]];
        [right; apply elem_of_cons|left]; auto.
Qed.

Lemma arrayMax_spec (l : list Z) (m : Z) :
  arrayMax l = Some m -> m ∈ l /\ forall y, y ∈ l -> y <= m.
Proof.
  destruct l as [|x l]; [discriminate|]. simpl. intros H. injection H as <-.
  destruct (fold_max_spec l x) as (Hge & Hall & Hin). split.
  - apply elem_of_cons. destruct Hin; auto.
  - intros y Hy. apply elem_of_cons in Hy as [->|Hy]; auto.
Qed.

(** The loop [for (i ...) map[ids[i]] = i]. *)
Lemma mapLoop_spec (ids : list Z) (L : nat) :
  (forall id, id ∈ ids -> 0 <= id /\ (Z.to_nat id < L)%nat) ->
  Z.of_nat (length ids) <= 2 ^ 32 ->
  let m := forRange 0 (length ids)
             (fun i map =>
                match ids !! i with
                | Some id => uint32Set map id (Z.of_nat i)
                | None => map
                end) (replicate L 0) in
  length m = L
  /\ forall i id, ids !! i = Some id ->
       (forall j, (i < j)%nat -> ids !! j <> Some id) ->
       m !! Z.to_nat id = Some (Z.of_nat i).
Proof.
  intros Hids Hbound m.
  assert (Hinv : length m = L
                 /\ forall i id, (i < length ids)%nat -> ids !! i = Some id ->
                      (forall j, (i < j < length ids)%nat -> ids !! j <> Some id) ->
                      m !! Z.to_nat id = Some (Z.of_nat i)).
  { unfold m.
    apply (forRange_invariant
             (fun k m => length m = L
                /\ forall i id, (i < k)%nat -> ids !! i = Some id ->
                     (forall j, (i < j < k)%nat -> ids !! j <> Some id) ->
                     m !! Z.to_nat id = Some (Z.of_nat i))).
    - split; [apply length_replicate|]. intros i id Hi. lia.
    - intros j mj Hj [Hlen Hlook].
      destruct (lookup_lt_is_Some_2 ids j Hj) as [idj Hidj]. rewrite Hidj.
      destruct (Hids idj (list_elem_of_lookup_2 _ _ _ Hidj)) as [Hpos HltL].
      rewrite uint32Set_nonneg by exact Hpos. split.
      + rewrite length_insert. exact Hlen.
      + intros i id Hi Hid Hlast. destruct (decide (i = j)) as [->|Hne].
        * rewrite Hidj in Hid. injection Hid as <-.
          rewrite list_lookup_insert_eq by lia.
          rewrite toUint32_small by lia. reflexivity.
        * assert (Hdiff : id <> idj).
          { intros ->. apply (Hlast j); [lia|exact Hidj]. }
          destruct (Hids id (list_elem_of_lookup_2 _ _ _ Hid)) as [Hpos' _].
          rewrite list_lookup_insert_ne by (intros Heq; apply Hdiff; lia).
          apply Hlook; [lia|exact Hid|].
          intros j' Hj'. apply Hlast. lia. }
  destruct Hinv as [Hlen Hlook]. split; [exact Hlen|].
  intros i id Hid Hlast.
  apply Hlook; [eapply lookup_lt_Some; exact Hid|exact Hid|].
  intros j Hj. apply Hlast. lia.
Qed.

(** How [getGrouping] goes: the identifiers it reads, and the two
    allocations that may fail. *)
Lemma getGrouping_inv (lim : Z) (vertex : PlyTable.t) (props : Props) (g : Grouping) :
  getGrouping lim vertex props = inr g ->
  ids g = match groupColumn vertex props with
          | Some c => Column.toUint32Array c
          | None => fillSerial (replicate (PlyTable.rowCount vertex) 0)
          end
  /\ (groupColumn vertex props = None -> Z.of_nat (PlyTable.rowCount vertex) <= lim)
  /\ exists maxId,
       arrayMax (ids g) = Some maxId /\ 0 <= maxId + 1 <= lim
       /\ map g = forRange 0 (length (ids g))
                    (fun i map =>
                       match ids g !! i with
                       | Some id => uint32Set map id (Z.of_nat i)
                       | None => map
                       end) (replicate (Z.to_nat (maxId + 1)) 0).
Proof.
  unfold getGrouping. fold (groupColumn vertex props).
  destruct (groupColumn vertex props) as [c|].
  - destruct (arrayMax (Column.toUint32Array c)) as [maxId|] eqn:Hmax;
      [|discriminate].
    destruct (newUint32Array lim (maxId + 1)) as [err|mp] eqn:Hmp; [discriminate|].
    apply newUint32Array_inr in Hmp as [Hr ->].
    intros H. injection H as <-. cbn [ids map].
    split; [reflexivity|]. split; [discriminate|].
    exists maxId. split; [exact Hmax|]. split; [exact Hr|reflexivity].
  - destruct (newUint32Array lim (Z.of_nat (PlyTable.rowCount vertex)))
      as [err|a] eqn:Ha; [discriminate|].
    apply newUint32Array_inr in Ha as [Hra ->]. rewrite Nat2Z.id.
    destruct (arrayMax (fillSerial (replicate (PlyTable.rowCount vertex) 0)))
      as [maxId|] eqn:Hmax; [|discriminate].
    destruct (newUint32Array lim (maxId + 1)) as [err|mp] eqn:Hmp; [discriminate|].
    apply newUint32Array_inr in Hmp as [Hr ->].
    intros H. injection H as <-. cbn [ids map].
    split; [reflexivity|]. split; [lia|].
    exists maxId. split; [exact Hmax|]. split; [exact Hr|reflexivity].
Qed.

Lemma idsOf_spec (vertex : PlyTable.t) (props : Props) :
  let l := match groupColumn vertex props with
           | Some c => Column.toUint32Array c
           | None => fillSerial (replicate (PlyTable.rowCount vertex) 0)
           end in
  length l = PlyTable.rowCount vertex
  /\ forall i, (i < PlyTable.rowCount vertex)%nat ->
       l !! i = Some (toUint32 (match groupColumn vertex props with
                                | Some c => Column.value c i
                                | None => Z.of_nat i
                                end)).
Proof.
  cbv zeta. destruct (groupColumn vertex props) as [c|] eqn:Hc.
  - assert (Hrc : Column.rowCount c = PlyTable.rowCount vertex).
    { unfold groupColumn in Hc. destruct (grouping props); [|discriminate].
      eapply getProperty_rowCount; eauto. }
    destruct (toUint32Array_spec c) as [H1 H2]. rewrite Hrc in *. auto.
  - apply fillSerial_spec.
Qed.

Lemma getGrouping_ids (lim : Z) (vertex : PlyTable.t) (props : Props) (g : Grouping) :
  getGrouping lim vertex props = inr g ->
  length (ids g) = PlyTable.rowCount vertex
  /\ (forall i, (i < PlyTable.rowCount vertex)%nat ->
        ids g !! i
        = Some (toUint32 (match groupColumn vertex props with
                          | Some c => Column.value c i
                          | None => Z.of_nat i
                          end)))
  /\ exists maxId,
       arrayMax (ids g) = Some maxId
       /\ map g = forRange 0 (length (ids g))
                    (fun i map =>
                       match ids g !! i with
                       | Some id => uint32Set map id (Z.of_nat i)
                       | None => map
                       end) (replicate (Z.to_nat (maxId + 1)) 0).
Proof.
  intros H. destruct (getGrouping_inv _ _ _ _ H) as (Hids & _ & maxId & Hmax & _ & Hmap).
  destruct (idsOf_spec vertex props) as [Hl1 Hl2]. cbv zeta in Hl1, Hl2.
  rewrite <- Hids in Hl1, Hl2.
  split; [exact Hl1|]. split; [exact Hl2|].
  exists maxId. split; [exact Hmax|exact Hmap].
Qed.


(** [getGrouping] throws when an identifier plus one exceeds what the
    engine allocates. *)
Lemma getGrouping_too_large (lim : Z) (vertex : PlyTable.t) (props : Props)
    (i : nat) :
  (i < PlyTable.rowCount vertex)%nat -> lim <= rowId vertex props i ->
  getGrouping lim vertex props = inl InvalidArrayLength.
Proof.
  intros Hi Hbig.
  destruct (getGrouping lim vertex props) as [err|g] eqn:H.
  - revert H. unfold getGrouping. fold (groupColumn vertex props).
    destruct (groupColumn vertex props) as [c|].
    + destruct (arrayMax _); [|intros H; injection H as <-; reflexivity].
      unfold newUint32Array at 1. destruct (_ || _);
        intros H; [injection H as <-; reflexivity|discriminate H].
    + unfold newUint32Array at 1.
      destruct (_ || _); [intros H; injection H as <-; reflexivity|].
      destruct (arrayMax _); [|intros H; injection H as <-; reflexivity].
      unfold newUint32Array at 1. destruct (_ || _);
        intros H; [injection H as <-; reflexivity|discriminate H].
  - exfalso.
    destruct (getGrouping_inv _ _ _ _ H) as (_ & _ & maxId & Hmax & Hr & _).
    destruct (getGrouping_ids _ _ _ _ H) as (_ & Hlook & _).
    destruct (arrayMax_spec _ _ Hmax) as [_ Hle].
    specialize (Hle (rowId vertex props i)
                  (list_elem_of_lookup_2 _ _ _ (Hlook i Hi))). lia.
Qed.

(** ** Claims about [getGrouping] and [getColoring] *)

Lemma getGrouping_ids_range (lim : Z) (vertex : PlyTable.t) (props : Props) (g : Grouping)
    (id : Z) :
  getGrouping lim vertex props = inr g -> id ∈ ids g -> 0 <= id < 2 ^ 32.
Proof.
  intros Hg Hid. destruct (getGrouping_ids _ _ _ _ Hg) as (Hlen & Hlook & _).
  apply list_elem_of_lookup_1 in Hid as [i Hi].
  assert (Hlt : (i < PlyTable.rowCount vertex)%nat).
  { rewrite <- Hlen. eapply lookup_lt_Some; exact Hi. }
  rewrite (Hlook i Hlt) in Hi. injection Hi as <-. apply toUint32_range.
Qed.



(** C8: [getColoring] is a total function, with no way to fail.  In
    per-vertex mode each channel is, independently, the named column when
    the table has it and otherwise the constant column 127; in uniform
    mode the channels are the constant columns of the red, green and blue
    components of the color; every channel has the row count of the
    vertex table. *)
Theorem C8_coloring_never_fails (vertex : PlyTable.t) (props : Props) :
  let c := getColoring vertex props in
  (Column.rowCount (red c) = PlyTable.rowCount vertex
   /\ Column.rowCount (green c) = PlyTable.rowCount vertex
   /\ Column.rowCount (blue c) = PlyTable.rowCount vertex)
  /\ match coloring props with
     | ColoringVertex r g b =>
         red c = channel vertex r /\ green c = channel vertex g
         /\ blue c = channel vertex b
     | ColoringUniform color =>
         red c = Column.ofConst (Color.r color) (PlyTable.rowCount vertex)
         /\ green c = Column.ofConst (Color.g color) (PlyTable.rowCount vertex)
         /\ blue c = Column.ofConst (Color.b color) (PlyTable.rowCount vertex)
     end.
Proof.
  assert (Hch : forall name,
             Column.rowCount (channel vertex name) = PlyTable.rowCount vertex).
  { intros name. unfold channel.
    destruct (PlyTable.getProperty vertex name) as [c|] eqn:Hc; [|reflexivity].
    eapply getProperty_rowCount; exact Hc. }
  unfold getColoring. destruct (coloring props) as [r g b|color].
  - assert (Hd : forall name,
               default (Column.ofConst 127 (PlyTable.rowCount vertex))
                 (PlyTable.getProperty vertex name) = channel vertex name).
    { intros name. unfold channel.
      destruct (PlyTable.getProperty vertex name); reflexivity. }
    cbn [red green blue]. rewrite !Hd, !Hch. repeat split; reflexivity.
  - destruct color as [cr cg cb]. cbn. repeat split; reflexivity.
Qed.

(** ** The shape getter *)

Lemma bind_inr {St A B} (m : Task St A) (k : A -> Task St B) (s s' : St) (r : B) :
  bind m k s = (inr r, s') ->
  exists a s1, m s = (inr a, s1) /\ k a s1 = (inr r, s').
Proof.
  unfold bind. destruct (m s) as [[e|a] s1]; [discriminate|]. eauto.
Qed.

Lemma inEnv_inr {A} (m : Task Env A) (w w' : World) (a : A) :
  inEnv m w = (inr a, w') ->
  exists e', m (env w) = (inr a, e') /\ w' = mkWorld e' (cache w).
Proof.
  unfold inEnv. destruct (m (env w)) as [r e']. intros H.
  injection H as -> <-. eauto.
Qed.

Lemma assign_inr (f : Cache -> Cache) (w w' : World) (u : unit) :
  assign f w = (inr u, w') -> w' = mkWorld (env w) (f (cache w)).
Proof. unfold assign. intros H. injection H as _ <-. reflexivity. Qed.

Lemma isParamEqual_true {A} `{EqDecision A} (a b : A) :
  isParamEqual a b = true <-> a = b.
Proof. unfold isParamEqual. apply bool_decide_eq_true. Qed.

Lemma isParamEqual_false {A} `{EqDecision A} (a b : A) :
  isParamEqual a b = false <-> a <> b.
Proof. unfold isParamEqual. apply bool_decide_eq_false. Qed.

Lemma createShape_eq (plyFile : PlyFile.t) (m : Obj Mesh.t) (col : Obj Coloring)
    (g : Obj Grouping) (e : Env) :
  createShape plyFile m col g e
  = (inr (mkObj (length (heap e)) (shapeOf plyFile m col g)),
     mkEnv (ctx e) (heap e ++ [KShape])).
Proof. reflexivity. Qed.

(** After a call that returned, the cache holds the dataset, the
    parameters and the shape returned. *)
Lemma getShape_success_cache (fn : list Z -> list (option Z) -> list Z) (lim : Z)
    (plyFile : PlyFile.t) (props : Props) (shape : option (Obj Shape))
    (w w' : World) (r : option (Obj Shape)) :
  getShape fn lim plyFile props shape w = (inr r, w') ->
  (exists vertex face,
      PlyFile.vertex plyFile = Some vertex /\ PlyFile.face plyFile = Some face)
  /\ _plyFile (cache w') = Some plyFile
  /\ _props (cache w') = Some props
  /\ _shape (cache w') = r.
Proof.
  unfold getShape.
  destruct (PlyFile.vertex plyFile) as [vertex|]; [|discriminate].
  destruct (PlyFile.face plyFile) as [face|]; [|discriminate].
  intros H. split; [eauto|].
  apply bind_inr in H as (c & wA & _ & H).
  apply bind_inr in H as (u & wB & _ & H).
  unfold bind, assign, readCache, ret, deepClone in H. cbn in H.
  injection H as <- <-. cbn. auto.
Qed.

(** The unchanged path. *)
Lemma getShape_unchanged (fn : list Z -> list (option Z) -> list Z) (lim : Z)
    (plyFile : PlyFile.t) (props props' : Props) (shape : option (Obj Shape))
    (e : Env) (c : Cache) (vertex : PlyTable.t) (face : PlyList.t) :
  PlyFile.vertex plyFile = Some vertex -> PlyFile.face plyFile = Some face ->
  _plyFile c = Some plyFile -> _props c = Some props ->
  grouping props' = grouping props -> coloring props' = coloring props ->
  getShape fn lim plyFile props' shape (mkWorld e c)
  = (inr (_shape c), mkWorld e c).
Proof.
  intros Hv Hf Hpf Hp Hg Hc. unfold getShape. rewrite Hv, Hf.
  unfold bind at 1. unfold readCache at 1. cbn [cache].
  rewrite Hpf, Hp, Nat.eqb_refl.
  rewrite (proj2 (isParamEqual_true (grouping props) (grouping props')))
    by congruence.
  rewrite (proj2 (isParamEqual_true (coloring props) (coloring props')))
    by congruence.
  cbn. unfold deepClone.
  assert (Heq : props' = props)
    by (destruct props, props'; cbn in *; congruence).
  rewrite Heq. destruct c; cbn in *. rewrite Hpf, Hp. reflexivity.
Qed.

(** C3: when a call has returned a shape, a second call with the same
    dataset and structurally equal grouping and coloring parameters
    returns that very shape object and leaves everything as it was: no
    object is created (nothing is recomputed), no checkpoint of the
    context is consumed and the cache is unchanged. *)
Theorem C3_unchanged_returns_cached_shape
    (fn : list Z -> list (option Z) -> list Z) (lim : Z) (plyFile : PlyFile.t)
    (props props' : Props) (hint hint' : option (Obj Shape))
    (w0 w1 : World) (s : Obj Shape) (e : Env) :
  getShape fn lim plyFile props hint w0 = (inr (Some s), w1) ->
  grouping props' = grouping props -> coloring props' = coloring props ->
  getShape fn lim plyFile props' hint' (mkWorld e (cache w1))
  = (inr (Some s), mkWorld e (cache w1)).
Proof.
  intros H Hg Hc.
  destruct (getShape_success_cache _ _ _ _ _ _ _ _ H)
    as ((vertex & face & Hv & Hf) & Hpf & Hp & Hs).
  rewrite <- Hs. eapply getShape_unchanged; eauto.
Qed.

Lemma C3_unchanged_returns_cached_shape_witness :
  exists s w1,
    getShape noNormals engineLimit squareFile vertexByAtom None start = (inr (Some s), w1)
    /\ getShape noNormals engineLimit squareFile vertexByAtom (Some s) (resume cancelled w1)
       = (inr (Some s), resume cancelled w1)
    /\ addr s = 4%nat.
Proof.
  destruct (getShape noNormals engineLimit squareFile vertexByAtom None start)
    as [[err|[s|]] w1] eqn:H; try (vm_compute in H; discriminate H).
  exists s, w1. split; [reflexivity|]. split.
  - exact (C3_unchanged_returns_cached_shape noNormals engineLimit squareFile vertexByAtom
             vertexByAtom None (Some s) start w1 s
             (mkEnv cancelled (heap (env w1))) H eq_refl eq_refl).
  - vm_compute in H. injection H as <- _. reflexivity.
Defined.

Lemma built_consistent (c : Cache) (plyFile : PlyFile.t) (props : Props) :
  built c -> cacheConsistent (set_props props (set_plyFile plyFile c)).
Proof. intros Hb p _. exact Hb. Qed.

(** A call that returns leaves a consistent cache consistent. *)
Lemma getShape_consistent (fn : list Z -> list (option Z) -> list Z) (lim : Z)
    (plyFile : PlyFile.t) (props : Props) (shape : option (Obj Shape))
    (w w' : World) (r : option (Obj Shape)) :
  cacheConsistent (cache w) ->
  getShape fn lim plyFile props shape w = (inr r, w') ->
  cacheConsistent (cache w').
Proof.
  intros Hcons. unfold getShape.
  destruct (PlyFile.vertex plyFile) as [vertex|]; [|discriminate].
  destruct (PlyFile.face plyFile) as [face|]; [|discriminate].
  intros H.
  apply bind_inr in H as (c & wA & Hread & H).
  unfold readCache in Hread. injection Hread as <- <-.
  apply bind_inr in H as (u & wB & Hbranch & H).
  assert (Hw' : w' = mkWorld (env wB)
                       (set_props props (set_plyFile plyFile (cache wB)))).
  { unfold bind, assign, readCache, ret, deepClone in H. cbn in H.
    injection H as _ <-. reflexivity. }
  rewrite Hw'. cbn [cache]. apply built_consistent. clear H Hw'.
  destruct (_ || _) eqn:HnewMesh.
  - (* full rebuild *)
    apply bind_inr in Hbranch as (col & w1 & Hcol & Hbranch).
    apply inEnv_inr in Hcol as (e1 & _ & ->).
    apply bind_inr in Hbranch as (u1 & w2 & Ha1 & Hbranch).
    apply assign_inr in Ha1 as ->.
    apply bind_inr in Hbranch as (grp & w3 & Hgrp & Hbranch).
    apply inEnv_inr in Hgrp as (e3 & _ & ->).
    apply bind_inr in Hbranch as (u2 & w4 & Ha2 & Hbranch).
    apply assign_inr in Ha2 as ->.
    apply bind_inr in Hbranch as (m & w5 & Hm & Hbranch).
    apply inEnv_inr in Hm as (e5 & _ & ->).
    apply bind_inr in Hbranch as (u3 & w6 & Ha3 & Hbranch).
    apply assign_inr in Ha3 as ->.
    apply bind_inr in Hbranch as (s & w7 & Hs & Hbranch).
    apply inEnv_inr in Hs as (e7 & Hs & ->).
    apply assign_inr in Hbranch as ->.
    rewrite createShape_eq in Hs. injection Hs as <- _.
    exists plyFile. eexists. exists m, col, grp. cbn. auto.
  - apply orb_false_iff in HnewMesh as [_ Hprops].
    destruct (_props (cache w)) as [p|] eqn:Hp; [|discriminate].
    destruct (negb (isParamEqual (coloring p) (coloring props))).
    + (* color-only rebuild *)
      apply bind_inr in Hbranch as (col & w1 & Hcol & Hbranch).
      apply inEnv_inr in Hcol as (e1 & _ & ->).
      apply bind_inr in Hbranch as (u1 & w2 & Ha1 & Hbranch).
      apply assign_inr in Ha1 as ->.
      destruct (_mesh (cache w)) as [m|] eqn:Hm; [|discriminate].
      destruct (_grouping (cache w)) as [grp|] eqn:Hg; [|discriminate].
      apply bind_inr in Hbranch as (s & w7 & Hs & Hbranch).
      apply inEnv_inr in Hs as (e7 & Hs & ->).
      apply assign_inr in Hbranch as ->.
      rewrite createShape_eq in Hs. injection Hs as <- _.
      exists plyFile. eexists. exists m, col, grp. cbn. auto.
    + (* unchanged *)
      unfold ret in Hbranch. injection Hbranch as _ <-.
      exact (Hcons p Hp).
Qed.

Lemma emptyCache_consistent : cacheConsistent emptyCache.
Proof. intros p H. discriminate H. Qed.

(** The color-only path. *)
Lemma getShape_colorOnly (fn : list Z -> list (option Z) -> list Z) (lim : Z)
    (plyFile : PlyFile.t) (props props' : Props) (shape : option (Obj Shape))
    (e : Env) (c : Cache) (vertex : PlyTable.t) (face : PlyList.t)
    (m : Obj Mesh.t) (g : Obj Grouping) :
  PlyFile.vertex plyFile = Some vertex -> PlyFile.face plyFile = Some face ->
  _plyFile c = Some plyFile -> _props c = Some props ->
  _mesh c = Some m -> _grouping c = Some g ->
  grouping props' = grouping props -> coloring props' <> coloring props ->
  let col' := mkObj (length (heap e)) (getColoring vertex props') in
  let s' := mkObj (S (length (heap e))) (shapeOf plyFile m col' g) in
  getShape fn lim plyFile props' shape (mkWorld e c)
  = (inr (Some s'),
     mkWorld (mkEnv (ctx e) (heap e ++ [KColoring; KShape]))
       (set_props props' (set_plyFile plyFile (set_shape s' (set_coloring col' c))))).
Proof.
  intros Hv Hf Hpf Hp Hm Hg Hgr Hco col' s'. unfold getShape. rewrite Hv, Hf.
  unfold bind at 1. unfold readCache at 1. cbn [cache].
  rewrite Hpf, Hp, Hm, Hg, Nat.eqb_refl.
  rewrite (proj2 (isParamEqual_true (grouping props) (grouping props')))
    by congruence.
  rewrite (proj2 (isParamEqual_false (coloring props) (coloring props')))
    by congruence.
  cbn. unfold deepClone, s', col'.
  rewrite length_app, <- app_assoc. cbn.
  replace (length (heap e) + 1)%nat with (S (length (heap e))) by lia.
  reflexivity.
Qed.

(** From a consistent cache (that of a new getter, or of any run of
    calls that returned), when a call has returned a shape and a second
    call presents the same dataset and equal grouping parameters but
    different coloring parameters, the second call creates exactly two
    objects, a coloring and a shape; the new shape is built on the very
    mesh and grouping objects of the previous result, which stay in the
    cache; no builder state, mesh or grouping is created and no
    checkpoint of the context is consumed.  A call that fails need not
    leave the cache consistent. *)
Lemma colorOnly_from_consistent_cache
    (fn : list Z -> list (option Z) -> list Z) (lim : Z) (plyFile : PlyFile.t)
    (props props' : Props) (hint hint' : option (Obj Shape))
    (w0 w1 : World) (s : Obj Shape) (e : Env) :
  cacheConsistent (cache w0) ->
  getShape fn lim plyFile props hint w0 = (inr (Some s), w1) ->
  grouping props' = grouping props -> coloring props' <> coloring props ->
  exists vertex f m col g,
    PlyFile.vertex plyFile = Some vertex
    /\ _mesh (cache w1) = Some m /\ _grouping (cache w1) = Some g
    /\ obj s = shapeOf f m col g
    /\ let col' := mkObj (length (heap e)) (getColoring vertex props') in
       let s' := mkObj (S (length (heap e))) (shapeOf plyFile m col' g) in
       getShape fn lim plyFile props' hint' (mkWorld e (cache w1))
       = (inr (Some s'),
          mkWorld (mkEnv (ctx e) (heap e ++ [KColoring; KShape]))
            (set_props props'
               (set_plyFile plyFile (set_shape s' (set_coloring col' (cache w1)))))).
Proof.
  intros Hcons H Hgr Hco.
  destruct (getShape_success_cache _ _ _ _ _ _ _ _ H)
    as ((vertex & face & Hv & Hf) & Hpf & Hp & Hs).
  destruct (getShape_consistent _ _ _ _ _ _ _ _ Hcons H props Hp)
    as (f & s0 & m & col & g & Hs0 & Hm & _ & Hg & Hobj).
  rewrite Hs in Hs0. injection Hs0 as <-.
  exists vertex, f, m, col, g.
  split; [exact Hv|]. split; [exact Hm|]. split; [exact Hg|].
  split; [exact Hobj|].
  eapply getShape_colorOnly; eauto.
Qed.

Lemma colorOnly_from_consistent_cache_example :
  exists s s' w1 w2,
    getShape noNormals engineLimit squareFile uniformNone None start = (inr (Some s), w1)
    /\ getShape noNormals engineLimit squareFile orangeNone (Some s) (resume cancelled w1)
       = (inr (Some s'), w2)
    /\ geometry (obj s') = geometry (obj s)
    /\ _mesh (cache w2) = _mesh (cache w1)
    /\ _grouping (cache w2) = _grouping (cache w1)
    /\ heap (env w2) = heap (env w1) ++ [KColoring; KShape]
    /\ ctx (env w2) = cancelled.
Proof.
  destruct (getShape noNormals engineLimit squareFile uniformNone None start)
    as [[err|[s|]] w1] eqn:H; try (vm_compute in H; discriminate H).
  destruct (colorOnly_from_consistent_cache noNormals engineLimit squareFile uniformNone orangeNone
              None (Some s) start w1 s (mkEnv cancelled (heap (env w1)))
              emptyCache_consistent H eq_refl ltac:(discriminate))
    as (vertex & f & m & col & g & Hv & Hm & Hg & Hobj & H2).
  cbv zeta in H2. eexists s, _, w1, _.
  split; [reflexivity|]. split; [exact H2|].
  cbn. rewrite Hobj, Hm, Hg. cbn. repeat split; reflexivity.
Defined.

(** ** What a failed call keeps, and which callbacks answer *)

Lemma bind_inl {St A B} (m : Task St A) (k : A -> Task St B) (s s' : St)
    (err : Error) :
  bind m k s = (inl err, s') ->
  m s = (inl err, s')
  \/ exists a s1, m s = (inr a, s1) /\ k a s1 = (inl err, s').
Proof.
  unfold bind. destruct (m s) as [[e|a] s1]; intros H.
  - left. injection H as <- <-. reflexivity.
  - right. exists a, s1. split; [reflexivity|exact H].
Qed.

Lemma inEnv_cache {A} (m : Task Env A) (w w' : World) (r : Error + A) :
  inEnv m w = (r, w') -> cache w' = cache w.
Proof.
  unfold inEnv. destruct (m (env w)) as [r' e']. intros H.
  injection H as _ <-. reflexivity.
Qed.

(** A call that fails leaves the cached dataset, parameters, mesh and
    shape as they were. *)
Lemma getShape_failure_keeps (fn : list Z -> list (option Z) -> list Z) (lim : Z)
    (plyFile : PlyFile.t) (props : Props) (shape : option (Obj Shape))
    (w w' : World) (err : Error) :
  getShape fn lim plyFile props shape w = (inl err, w') ->
  _plyFile (cache w') = _plyFile (cache w)
  /\ _props (cache w') = _props (cache w)
  /\ _mesh (cache w') = _mesh (cache w)
  /\ _shape (cache w') = _shape (cache w).
Proof.
  unfold getShape.
  destruct (PlyFile.vertex plyFile) as [vertex|];
    [|intros H; injection H as _ <-; auto].
  destruct (PlyFile.face plyFile) as [face|];
    [|intros H; injection H as _ <-; auto].
  intros H.
  apply bind_inl in H as [H | (c & wA & Hread & H)]; [discriminate H|].
  unfold readCache in Hread. injection Hread as <- <-.
  apply bind_inl in H as [H | (u & wB & _ & H)];
    [|unfold bind, assign, readCache, ret in H; discriminate H].
  destruct (_ || _) eqn:HnewMesh.
  - apply bind_inl in H as [H | (col & w1 & Hcol & H)];
      [apply inEnv_cache in H; rewrite H; auto|].
    apply inEnv_cache in Hcol.
    apply bind_inl in H as [H | (u1 & w2 & Ha1 & H)]; [discriminate H|].
    apply assign_inr in Ha1 as ->.
    apply bind_inl in H as [H | (grp & w3 & Hgrp & H)];
      [apply inEnv_cache in H; cbn in H; rewrite H, Hcol; auto|].
    apply inEnv_cache in Hgrp. cbn in Hgrp.
    apply bind_inl in H as [H | (u2 & w4 & Ha2 & H)]; [discriminate H|].
    apply assign_inr in Ha2 as ->.
    apply bind_inl in H as [H | (m & w5 & Hm & H)];
      [apply inEnv_cache in H; cbn in H; rewrite H, Hgrp, Hcol; auto|].
    apply bind_inl in H as [H | (u3 & w6 & Ha3 & H)]; [discriminate H|].
    apply bind_inl in H as [H | (s & w7 & Hs & H)]; [|discriminate H].
    unfold inEnv in H. rewrite createShape_eq in H. discriminate H.
  - apply orb_false_iff in HnewMesh as [_ Hprops].
    destruct (_props (cache w)) as [p|] eqn:Hp; [|discriminate Hprops].
    destruct (negb (isParamEqual (coloring p) (coloring props)));
      [|discriminate H].
    apply bind_inl in H as [H | (col & w1 & Hcol & H)];
      [apply inEnv_cache in H; rewrite H, Hp; auto|].
    apply inEnv_cache in Hcol.
    apply bind_inl in H as [H | (u1 & w2 & Ha1 & H)]; [discriminate H|].
    apply assign_inr in Ha1 as ->.
    destruct (_mesh (cache w)) as [m|] eqn:Hm;
      [destruct (_grouping (cache w)) as [grp|] eqn:Hg|].
    + apply bind_inl in H as [H | (s & w7 & Hs & H)]; [|discriminate H].
      unfold inEnv in H. rewrite createShape_eq in H. discriminate H.
    + injection H as _ <-. cbn. rewrite Hcol. auto.
    + injection H as _ <-. cbn. rewrite Hcol. auto.
Qed.

Lemma mapLoop_length (ids : list Z) (L : nat) :
  length (forRange 0 (length ids)
            (fun i map =>
               match ids !! i with
               | Some id => uint32Set map id (Z.of_nat i)
               | None => map
               end) (replicate L 0)) = L.
Proof.
  apply (forRange_invariant (fun _ m => length m = L)).
  - apply length_replicate.
  - intros j m _ Hlen. destruct (ids !! j) as [id|]; [|exact Hlen].
    unfold uint32Set. destruct (id <? 0); [exact Hlen|].
    rewrite length_insert. exact Hlen.
Qed.

(** For every identifier of a grouping, the color and size callbacks of
    a shape built on it answer. *)
Lemma getColor_getSize_answer (lim : Z) (vertex : PlyTable.t) (props : Props)
    (plyFile : PlyFile.t) (m : Obj Mesh.t) (col : Obj Coloring)
    (g : Obj Grouping) (groupId : Z) :
  getGrouping lim vertex props = inr (obj g) -> groupId ∈ ids (obj g) ->
  is_Some (getColor (shapeOf plyFile m col g) groupId)
  /\ getSize (shapeOf plyFile m col g) groupId = 1.
Proof.
  intros Hg Hin. split; [|reflexivity].
  destruct (getGrouping_ids _ _ _ _ Hg) as (_ & _ & maxId & Hmax & Hmap).
  destruct (arrayMax_spec _ _ Hmax) as [HmaxIn Hle].
  pose proof (getGrouping_ids_range _ _ _ _ _ Hg Hin) as Hr.
  pose proof (mapLoop_length (ids (obj g)) (Z.to_nat (maxId + 1))) as Hlen.
  rewrite <- Hmap in Hlen. specialize (Hle _ Hin).
  assert (Hlt : (Z.to_nat groupId < length (map (obj g)))%nat) by lia.
  destruct (lookup_lt_is_Some_2 _ _ Hlt) as [idx Hidx].
  cbn [shapeOf getColor]. rewrite arrayGet_nonneg by lia. rewrite Hidx. eauto.
Qed.

(** The label callback answers exactly for the group ids below the
    number of rows. *)
Lemma getLabel_answers_iff (lim : Z) (vertex : PlyTable.t) (props : Props)
    (plyFile : PlyFile.t) (m : Obj Mesh.t) (col : Obj Coloring)
    (g : Obj Grouping) (groupId : Z) :
  getGrouping lim vertex props = inr (obj g) ->
  (exists label, getLabel (shapeOf plyFile m col g) groupId = inr label)
  <-> 0 <= groupId < Z.of_nat (PlyTable.rowCount vertex).
Proof.
  intros Hg. destruct (getGrouping_ids _ _ _ _ Hg) as (Hlen & _ & _).
  cbn [shapeOf getLabel]. unfold arrayGet.
  destruct (Z.ltb_spec groupId 0) as [Hneg|Hpos].
  - split; [intros [label H]; discriminate H|lia].
  - destruct (ids (obj g) !! Z.to_nat groupId) as [id|] eqn:Hid.
    + apply lookup_lt_Some in Hid. split; [lia|eauto].
    + apply lookup_ge_None_1 in Hid.
      split; [intros [label H]; discriminate H|lia].
Qed.

(** ** Where the code departs from the design document *)


(** C1 (the code at a failing input): after a first request, a request
    that fails, by cancellation at the first checkpoint or for a file
    without [x], leaves the cached dataset, parameters, mesh and shape as
    they were but has already replaced the cached coloring and grouping;
    a later color-only request then builds its shape on the grouping of
    the failed request, and labels group 1 as 7 where it would have
    labelled it 1 had the failed request never happened. *)
Theorem C1_failed_build_replaces_coloring_and_grouping :
  let w1 := snd firstCall in
  let w2 := snd cancelledCall in
  let w2' := snd brokenCall in
  (fst cancelledCall = inl Aborted
   /\ fst brokenCall = inl MissingCoordinateProperties)
  /\ (_grouping (cache w1) = Some (mkObj 1%nat (mkGrouping [0; 1; 2; 3] [0; 1; 2; 3]))
      /\ _grouping (cache w2)
         = Some (mkObj 6%nat (mkGrouping [5; 7; 5; 9] [0; 0; 0; 0; 0; 2; 0; 1; 0; 3]))
      /\ _grouping (cache w2') = _grouping (cache w2))
  /\ (addr <$> _coloring (cache w1) = Some 0%nat
      /\ addr <$> _coloring (cache w2) = Some 5%nat
      /\ addr <$> _coloring (cache w2') = Some 5%nat)
  /\ (_mesh (cache w2) = _mesh (cache w1) /\ _shape (cache w2) = _shape (cache w1)
      /\ _plyFile (cache w2) = _plyFile (cache w1)
      /\ _props (cache w2) = _props (cache w1))
  /\ (exists s w, laterCall w1 = (inr (Some s), w) /\ getLabel (obj s) 1 = inr "1")
  /\ (exists s w, laterCall w2 = (inr (Some s), w) /\ getLabel (obj s) 1 = inr "7").
Proof.
  cbv zeta. repeat conj; try by_evaluation;
    eexists _, _; (split; by_evaluation).
Qed.

(** C4 (the code at a failing input): a first request returns a shape; a
    request with another grouping is cancelled at its first checkpoint;
    the first request, made again, finds nothing changed and returns the
    first shape; a request that then changes only the color creates just
    a coloring and a shape, and its shape is on the mesh of the previous
    result, but the grouping it is built on is the one the cancelled
    request left in the cache, not the grouping of the previous result:
    it labels the groups 5, 7, 5, 9 where the previous result labels them
    0, 1, 2, 3.  The early assignment of the grouping is the defect of
    C1. *)
Theorem C4_color_only_rebuild_on_grouping_of_failed_call :
  exists s s' w m col col' g g',
    (_mesh (cache (snd firstCall)) = Some m
     /\ _coloring (cache (snd firstCall)) = Some col
     /\ _grouping (cache (snd firstCall)) = Some g
     /\ _grouping (cache (snd cancelledCall)) = Some g'
     /\ fst firstCall = inr (Some s))
    /\ fst cancelledCall = inl Aborted
    /\ fst repeatedCall = inr (Some s)
    /\ recoloredCall = (inr (Some s'), w)
    /\ _coloring (cache w) = Some col'
    /\ heap (env w) = heap (env (snd repeatedCall)) ++ [KColoring; KShape]
    /\ obj s = shapeOf squareFile m col g
    /\ obj s' = shapeOf squareFile m col' g'
    /\ g = mkObj 1%nat (mkGrouping [0; 1; 2; 3] [0; 1; 2; 3])
    /\ g' = mkObj 6%nat (mkGrouping [5; 7; 5; 9] [0; 0; 0; 0; 0; 2; 0; 1; 0; 3])
    /\ List.map (getLabel (obj s)) [0; 1; 2; 3]
       = [inr "0"; inr "1"; inr "2"; inr "3"]
    /\ List.map (getLabel (obj s')) [0; 1; 2; 3]
       = [inr "5"; inr "7"; inr "5"; inr "9"].
Proof.
  eexists _, _, _, _, _, _, _, _. repeat conj; by_evaluation.
Qed.

(** C2 (the code at a failing input): grouping the square by [atomid]
    gives a mesh whose group buffer holds the identifier 5; for that
    group [getColor] and [getSize] answer, and [getLabel] reads [ids[5]]
    in an array of four rows and fails on [undefined]. *)
Theorem C2_label_fails_for_id_beyond_row_count :
  exists s w,
    getShape noNormals engineLimit squareFile uniformByAtom None start = (inr (Some s), w)
    /\ Mesh.groupBuffer (obj (geometry (obj s))) = [Some 5; Some 7; Some 5; Some 9]
    /\ getColor (obj s) 5 = Some grey
    /\ getSize (obj s) 5 = 1
    /\ getLabel (obj s) 5 = inl TypeError.
Proof.
  eexists _, _. split; [by_evaluation|]. repeat conj; by_evaluation.
Qed.

(* ===================================================================== *)
(** * Further properties of perf-tests/tasks.ts *)
(* ===================================================================== *)

Import TasksSpec.

(** X1: two successive suspensions of the maybe-awaitable [Yielding] are
    never less than 250 ms apart, and the first is at least 250 ms after
    the [lastUpdated] the run starts from, whatever the clock does. *)
Theorem X1_yielding_suspensions_spaced (y : Yielding.t) (clock : list Z) :
  spaced (Yielding.lastUpdated y) (suspendedAt (runYielding y clock) clock).
Proof.
  revert y. induction clock as [|t clock IH]; intros y; [exact I|].
  cbn [runYielding]. unfold maybeAwaitable, Yielding.yield. cbv zeta.
  destruct (Z.ltb_spec (t - Yielding.lastUpdated y) 250) as [Hlt|Hge].
  - cbn [suspendedAt]. apply IH.
  - cbn [suspendedAt spaced]. split; [exact Hge|].
    apply (IH (Yielding.mk t)).
Qed.

(** X2: with [CheckYielding] used check-then-yield, every suspension
    happens at a [needsYield] reading more than 250 ms after the clock
    reading that the previous [yield] stored. *)
Theorem X2_check_yielding_suspensions_spaced (y : CheckYielding.t)
    (clock : list (Z * Z)) :
  spacedChecks (CheckYielding.lastUpdated y)
    (suspendedAt (runCheckYielding y clock) clock).
Proof.
  revert y. induction clock as [|[t t'] clock IH]; intros y; [exact I|].
  cbn [runCheckYielding]. unfold checkThenYield, CheckYielding.needsYield,
    CheckYielding.yield.
  destruct (Z.gtb_spec (t - CheckYielding.lastUpdated y) 250) as [Hgt|Hle].
  - cbn [suspendedAt spacedChecks]. split; [lia|].
    apply (IH (CheckYielding.mk t')).
  - cbn [suspendedAt]. apply IH.
Qed.

(** X3: while the clock stays at or below [T], a run of [Yielding] that
    starts from [lastUpdated <= T] suspends at most
    [(T - lastUpdated) / 250] times. *)
Theorem X3_yielding_suspension_bound (y : Yielding.t) (clock : list Z) (T : Z) :
  Yielding.lastUpdated y <= T ->
  Forall (fun t => t <= T) clock ->
  250 * Z.of_nat (suspensions (runYielding y clock)) <= T - Yielding.lastUpdated y.
Proof.
  revert y. induction clock as [|t clock IH]; intros y Hy Hc.
  - cbn. lia.
  - inversion Hc as [|? ? Ht Hrest]; subst.
    cbn [runYielding]. unfold maybeAwaitable, Yielding.yield. cbv zeta.
    destruct (Z.ltb_spec (t - Yielding.lastUpdated y) 250) as [Hlt|Hge].
    + unfold suspensions. cbn [List.filter]. apply IH; assumption.
    + unfold suspensions. cbn [List.filter length].
      specialize (IH (Yielding.mk t) Ht Hrest). unfold suspensions in IH.
      cbn [Yielding.lastUpdated] in IH. lia.
Qed.

Lemma X3_yielding_suspension_bound_witness :
  250 * Z.of_nat (suspensions (runYielding Yielding.new [100; 260; 400; 520; 1000]))
  <= 1000 - 0.
Proof.
  apply (X3_yielding_suspension_bound Yielding.new [100; 260; 400; 520; 1000] 1000).
  - vm_compute. discriminate.
  - repeat constructor; vm_compute; discriminate.
Defined.

(** X4: the same bound for [CheckYielding] used check-then-yield, when
    the clock does not run backwards between [needsYield] and [yield] and
    stays at or below [T]. *)
Theorem X4_check_yielding_suspension_bound (y : CheckYielding.t)
    (clock : list (Z * Z)) (T : Z) :
  CheckYielding.lastUpdated y <= T ->
  Forall (fun p => fst p <= snd p /\ snd p <= T) clock ->
  250 * Z.of_nat (suspensions (runCheckYielding y clock))
  <= T - CheckYielding.lastUpdated y.
Proof.
  revert y. induction clock as [|[t t'] clock IH]; intros y Hy Hc.
  - cbn. lia.
  - inversion Hc as [|? ? [Ht Ht'] Hrest]; subst. cbn [fst snd] in Ht, Ht'.
    cbn [runCheckYielding]. unfold checkThenYield, CheckYielding.needsYield,
      CheckYielding.yield.
    destruct (Z.gtb_spec (t - CheckYielding.lastUpdated y) 250) as [Hgt|Hle].
    + unfold suspensions. cbn [List.filter length].
      specialize (IH (CheckYielding.mk t') Ht' Hrest). unfold suspensions in IH.
      cbn [CheckYielding.lastUpdated] in IH. lia.
    + unfold suspensions. cbn [List.filter]. apply IH; assumption.
Qed.

Lemma X4_check_yielding_suspension_bound_witness :
  250 * Z.of_nat (suspensions (runCheckYielding CheckYielding.new
                                 [(100, 100); (260, 262); (400, 400); (520, 521)]))
  <= 600 - 0.
Proof.
  apply (X4_check_yielding_suspension_bound CheckYielding.new
           [(100, 100); (260, 262); (400, 400); (520, 521)] 600).
  - vm_compute. discriminate.
  - repeat constructor; vm_compute; discriminate.
Defined.

(* ===================================================================== *)
(** * Further properties of mol-model-formats/shape/ply.ts *)
(* ===================================================================== *)

Import PlyRuns.

(** ** The parameter definition *)

Lemma includes_In (names : list string) (name : string) :
  PlyParams.includes names name = true <-> In name names.
Proof.
  unfold PlyParams.includes. rewrite existsb_exists. split.
  - intros (x & Hin & Heq). apply String.eqb_eq in Heq. subst. exact Hin.
  - intros Hin. exists name. split; [exact Hin|apply String.eqb_refl].
Qed.

Lemma getProperty_In (vertex : PlyTable.t) (name : string) :
  In name (PlyTable.propertyNames vertex) ->
  exists c, PlyTable.getProperty vertex name = Some c.
Proof.
  unfold PlyTable.propertyNames, PlyTable.getProperty.
  induction (PlyTable.properties vertex) as [|[n f] l IH]; intros Hin;
    [destruct Hin|].
  cbn [find fst]. destruct (String.eqb_spec n name) as [Heq|Hne]; [eauto|].
  apply IH. destruct Hin as [Hin|Hin]; [contradiction|exact Hin].
Qed.

Lemma getProperty_not_In (vertex : PlyTable.t) (name : string) :
  ~ In name (PlyTable.propertyNames vertex) ->
  PlyTable.getProperty vertex name = None.
Proof.
  unfold PlyTable.propertyNames, PlyTable.getProperty.
  induction (PlyTable.properties vertex) as [|[n f] l IH]; intros Hin;
    [reflexivity|].
  cbn [find fst]. destruct (String.eqb_spec n name) as [Heq|Hne].
  - destruct Hin. left. exact Heq.
  - apply IH. intros H. apply Hin. right. exact H.
Qed.

(** X5: every select of the definition [createPlyShapeParams] returns
    offers the empty option followed by one option per property name of
    the vertex table, in the table's order, and its default value is one
    of the offered values. *)
Theorem X5_select_defaults_are_options (grey : Color.t)
    (vertex : option PlyTable.t) :
  let names := match vertex with
               | Some v => PlyTable.propertyNames v
               | None => []
               end in
  Forall (fun sel =>
            PlyParams.options sel
            = ("", "") :: List.map (fun name => (name, name)) names
            /\ In (PlyParams.defaultValue sel)
                 (List.map fst (PlyParams.options sel)))
    (PlyParams.selects (PlyParams.createPlyShapeParams grey vertex)).
Proof.
  intros names.
  assert (Hopt : forall name,
             In (if PlyParams.includes names name then name else "")
               (List.map fst (("", "") :: List.map (fun n => (n, n)) names))).
  { intros name. destruct (PlyParams.includes names name) eqn:Hinc.
    - right. rewrite List.map_map. cbn [fst]. rewrite List.map_id.
      apply includes_In. exact Hinc.
    - left. reflexivity. }
  unfold PlyParams.selects, PlyParams.createPlyShapeParams. fold names.
  cbn [PlyParams.red PlyParams.green PlyParams.blue PlyParams.group app].
  repeat (apply List.Forall_cons; [split; [reflexivity|apply Hopt]|]).
  apply List.Forall_nil.
Qed.

Lemma default_modes (grey : Color.t) (vertex : option PlyTable.t) :
  let names := match vertex with
               | Some v => PlyTable.propertyNames v
               | None => []
               end in
  let d := PlyParams.createPlyShapeParams grey vertex in
  (PlyParams.coloringDefault d = "vertex"
   <-> In "red" names /\ In "green" names /\ In "blue" names)
  /\ (PlyParams.coloringDefault d = "vertex"
      \/ PlyParams.coloringDefault d = "uniform")
  /\ (PlyParams.groupingDefault d = "vertex" <-> In "atomid" names)
  /\ (PlyParams.groupingDefault d = "vertex"
      \/ PlyParams.groupingDefault d = "none").
Proof.
  intros names d. unfold d, PlyParams.createPlyShapeParams. fold names.
  cbn [PlyParams.coloringDefault PlyParams.groupingDefault].
  rewrite <- !includes_In.
  destruct (PlyParams.includes names "red"),
    (PlyParams.includes names "green"), (PlyParams.includes names "blue"),
    (PlyParams.includes names "atomid"); cbn; intuition congruence.
Qed.

(** X6: the default coloring mode is ['vertex'] exactly when the vertex
    table has all of [red], [green] and [blue], and ['uniform'] otherwise;
    the default grouping mode is ['vertex'] exactly when it has [atomid],
    and ['none'] otherwise; without a vertex table they are ['uniform']
    and ['none']. *)
Theorem X6_default_modes (grey : Color.t) (vertex : option PlyTable.t) :
  let names := match vertex with
               | Some v => PlyTable.propertyNames v
               | None => []
               end in
  let d := PlyParams.createPlyShapeParams grey vertex in
  (PlyParams.coloringDefault d = "vertex"
   <-> In "red" names /\ In "green" names /\ In "blue" names)
  /\ (PlyParams.coloringDefault d = "vertex"
      \/ PlyParams.coloringDefault d = "uniform")
  /\ (PlyParams.groupingDefault d = "vertex" <-> In "atomid" names)
  /\ (PlyParams.groupingDefault d = "vertex"
      \/ PlyParams.groupingDefault d = "none").
Proof. apply default_modes. Qed.

(** X7: when the default coloring mode of [createPlyShapeParams(vertex)]
    is ['vertex'], its three default channel names are properties of the
    table, and [getColoring] with these defaults uses the table's own
    columns, with no constant fallback. *)
Theorem X7_default_coloring_resolves (grey : Color.t) (vertex : PlyTable.t)
    (gp : GroupingParams) :
  let d := PlyParams.createPlyShapeParams grey (Some vertex) in
  PlyParams.coloringDefault d = "vertex" ->
  exists r g b,
    PlyTable.getProperty vertex "red" = Some r
    /\ PlyTable.getProperty vertex "green" = Some g
    /\ PlyTable.getProperty vertex "blue" = Some b
    /\ getColoring vertex
         (mkProps (ColoringVertex (PlyParams.defaultValue (PlyParams.red d))
                     (PlyParams.defaultValue (PlyParams.green d))
                     (PlyParams.defaultValue (PlyParams.blue d))) gp)
       = mkColoring r g b.
Proof.
  intros d Hmode.
  destruct (default_modes grey (Some vertex)) as [Hcol _].
  cbv zeta in Hcol. destruct (proj1 Hcol Hmode) as (Hr & Hg & Hb).
  destruct (getProperty_In _ _ Hr) as [r Hr'].
  destruct (getProperty_In _ _ Hg) as [g Hg'].
  destruct (getProperty_In _ _ Hb) as [b Hb'].
  exists r, g, b. repeat split; try assumption.
  unfold d, PlyParams.createPlyShapeParams.
  cbn [PlyParams.red PlyParams.green PlyParams.blue PlyParams.defaultValue].
  rewrite (proj2 (includes_In _ _) Hr), (proj2 (includes_In _ _) Hg),
    (proj2 (includes_In _ _) Hb).
  unfold getColoring. cbn [coloring]. rewrite Hr', Hg', Hb'. reflexivity.
Qed.

Lemma X7_default_coloring_resolves_witness :
  exists r g b,
    PlyTable.getProperty coloredSquare "red" = Some r
    /\ PlyTable.getProperty coloredSquare "green" = Some g
    /\ PlyTable.getProperty coloredSquare "blue" = Some b
    /\ getColoring coloredSquare (mkProps (ColoringVertex "red" "green" "blue") GroupingNone)
       = mkColoring r g b.
Proof.
  exact (X7_default_coloring_resolves grey coloredSquare GroupingNone eq_refl).
Defined.

(** X8: when the default grouping mode of [createPlyShapeParams(vertex)]
    is ['vertex'], its default group property is a column of the table,
    and [getGrouping] with this default reads its identifiers from that
    column: the identifier of row [i] is the column's value at [i] as a
    [Uint32]. *)
Theorem X8_default_grouping_resolves (lim : Z) (grey : Color.t) (vertex : PlyTable.t)
    (cp : ColoringParams) (g : Grouping) :
  let d := PlyParams.createPlyShapeParams grey (Some vertex) in
  let props := mkProps cp (GroupingVertex (PlyParams.defaultValue (PlyParams.group d))) in
  PlyParams.groupingDefault d = "vertex" ->
  getGrouping lim vertex props = inr g ->
  exists c,
    PlyTable.getProperty vertex "atomid" = Some c
    /\ forall i, (i < PlyTable.rowCount vertex)%nat ->
         ids g !! i = Some (toUint32 (Column.value c i)).
Proof.
  intros d props Hmode Hg.
  destruct (default_modes grey (Some vertex)) as (_ & _ & Hgrp & _).
  cbv zeta in Hgrp. pose proof (proj1 Hgrp Hmode) as Hin.
  destruct (getProperty_In _ _ Hin) as [c Hc]. exists c. split; [exact Hc|].
  destruct (getGrouping_ids _ _ _ _ Hg) as (_ & Hlook & _).
  intros i Hi. rewrite (Hlook i Hi).
  unfold groupColumn, props, d, PlyParams.createPlyShapeParams.
  cbn [grouping PlyParams.group PlyParams.defaultValue].
  rewrite (proj2 (includes_In _ _) Hin), Hc. reflexivity.
Qed.

Lemma X8_default_grouping_resolves_witness :
  exists g c,
    getGrouping engineLimit coloredSquare (mkProps (ColoringUniform grey) (GroupingVertex "atomid"))
    = inr g
    /\ PlyTable.getProperty coloredSquare "atomid" = Some c
    /\ forall i, (i < 4)%nat -> ids g !! i = Some (toUint32 (Column.value c i)).
Proof.
  destruct (getGrouping engineLimit coloredSquare
              (mkProps (ColoringUniform grey) (GroupingVertex "atomid")))
    as [err|g] eqn:Hg; [vm_compute in Hg; discriminate Hg|].
  destruct (X8_default_grouping_resolves engineLimit grey coloredSquare
              (ColoringUniform grey) g eq_refl Hg) as (c & Hc & Hids).
  exists g, c. split; [reflexivity|]. split; [exact Hc|exact Hids].
Defined.

(** ** Full rebuilds *)

Lemma newMesh_of_mustRebuild (c : Cache) (plyFile : PlyFile.t) (props : Props) :
  mustRebuild c plyFile props ->
  (match _plyFile c with
   | Some f => negb (PlyFile.ref f =? PlyFile.ref plyFile)%nat
   | None => true
   end
   || match _props c with
      | Some p => negb (isParamEqual (grouping p) (grouping props))
      | None => true
      end) = true.
Proof.
  intros [H|H]; apply orb_true_iff; [left|right].
  - destruct (_plyFile c) as [f|]; [|reflexivity].
    apply negb_true_iff, Nat.eqb_neq. exact H.
  - destruct (_props c) as [p|]; [|reflexivity].
    apply negb_true_iff, isParamEqual_false. exact H.
Qed.

Lemma alloc_inr {A} (k : Kind) (a : A) (e e' : Env) (o : Obj A) :
  alloc k a e = (inr o, e') ->
  o = mkObj (length (heap e)) a /\ e' = mkEnv (ctx e) (heap e ++ [k]).
Proof. unfold alloc. intros H. injection H as <- <-. auto. Qed.

(** A returning call that had to rebuild ran every step once. *)
Lemma getShape_rebuild_inv (fn : list Z -> list (option Z) -> list Z) (lim : Z)
    (plyFile : PlyFile.t) (props : Props) (shape : option (Obj Shape))
    (e : Env) (c : Cache) (r : option (Obj Shape)) (w' : World) :
  mustRebuild c plyFile props ->
  getShape fn lim plyFile props shape (mkWorld e c) = (inr r, w') ->
  exists vertex face g cc e',
    PlyFile.vertex plyFile = Some vertex /\ PlyFile.face plyFile = Some face
    /\ getGrouping lim vertex props = inr g /\ coordinates vertex = Some cc
    /\ let col := mkObj (length (heap e)) (getColoring vertex props) in
       let grp := mkObj (length (heap e) + 1) g in
       let m := mkObj (length (heap e) + 3)
                  (builtMesh fn vertex face (ids g) cc) in
       let s := mkObj (length (heap e) + 4) (shapeOf plyFile m col grp) in
       r = Some s
       /\ w' = mkWorld e' (rebuiltCache plyFile props s m col grp)
       /\ heap e' = heap e ++ [KColoring; KGrouping; KBuilderState; KMesh; KShape].
Proof.
  intros Hmust. unfold getShape.
  destruct (PlyFile.vertex plyFile) as [vertex|]; [|discriminate].
  destruct (PlyFile.face plyFile) as [face|]; [|discriminate].
  intros H. exists vertex, face.
  apply bind_inr in H as (c0 & wA & Hread & H).
  unfold readCache in Hread. cbn [cache] in Hread. injection Hread as <- <-.
  rewrite (newMesh_of_mustRebuild _ _ _ Hmust) in H.
  apply bind_inr in H as (u & wB & Hbranch & H).
  apply bind_inr in Hbranch as (col & w1 & Hcol & Hbranch).
  apply inEnv_inr in Hcol as (e1 & Hcol & ->).
  apply alloc_inr in Hcol as [-> ->].
  apply bind_inr in Hbranch as (u1 & w2 & Ha1 & Hbranch).
  apply assign_inr in Ha1 as ->.
  apply bind_inr in Hbranch as (grp & w3 & Hgrp & Hbranch).
  apply inEnv_inr in Hgrp as (e3 & Hgrp & ->).
  apply bind_inr in Hgrp as (g & e2 & Hcall & Hgrp).
  destruct (getGrouping lim vertex props) as [err|g'] eqn:Hg; [discriminate Hcall|].
  unfold call, ret in Hcall. injection Hcall as <- <-.
  apply alloc_inr in Hgrp as [-> ->].
  apply bind_inr in Hbranch as (u2 & w4 & Ha2 & Hbranch).
  apply assign_inr in Ha2 as ->.
  apply bind_inr in Hbranch as (m & w5 & Hm & Hbranch).
  apply inEnv_inr in Hm as (e5 & Hm & ->).
  apply getMesh_returns in Hm as (cc & Hcc & -> & Hh5).
  apply bind_inr in Hbranch as (u3 & w6 & Ha3 & Hbranch).
  apply assign_inr in Ha3 as ->.
  apply bind_inr in Hbranch as (s & w7 & Hs & Hbranch).
  apply inEnv_inr in Hs as (e7 & Hs & ->).
  apply assign_inr in Hbranch as ->.
  rewrite createShape_eq in Hs. injection Hs as <- <-.
  unfold bind, assign, readCache, ret, deepClone in H.
  cbn [env cache] in H. injection H as <- <-.
  exists g', cc. eexists. split; [reflexivity|]. split; [reflexivity|].
  split; [reflexivity|]. split; [exact Hcc|].
  cbn [env cache heap ctx] in *.
  assert (Hl5 : length (heap e5) = (length (heap e) + 4)%nat).
  { rewrite Hh5, !length_app. cbn. lia. }
  replace (S (length ((heap e ++ [KColoring]) ++ [KGrouping])))
    with (length (heap e) + 3)%nat by (rewrite !length_app; cbn; lia).
  replace (length (heap e ++ [KColoring])) with (length (heap e) + 1)%nat
    by (rewrite length_app; cbn; lia).
  rewrite Hl5. cbv zeta. split; [reflexivity|]. split; [reflexivity|].
  cbn [heap]. rewrite Hh5, <- !app_assoc. reflexivity.
Qed.


(** ** How often a build consults the context *)

Lemma checkpoint_polls (i il : nat) (what : string) (e e1 : Env)
    (r : Error + unit) :
  checkpoint i il what e = (r, e1) ->
  shouldUpdates (ctx e1)
  = drop (pollAt i) (shouldUpdates (ctx e)).
Proof.
  unfold checkpoint, pollAt. destruct (Z.of_nat i mod 100000 =? 0).
  - unfold bind, shouldUpdate, update. destruct e as [[us cs] h]. cbn.
    destruct us as [|[|] us]; cbn.
    + intros H. injection H as _ <-. reflexivity.
    + destruct cs as [|[|] cs]; cbn; intros H; injection H as _ <-; reflexivity.
    + intros H. injection H as _ <-. reflexivity.
  - unfold ret. intros H. injection H as _ <-. reflexivity.
Qed.

Lemma turn_polls {X} (i il : nat) (what : string) (k : Task Env X) (e e1 : Env)
    (r : Error + X) :
  (forall e2 r2 e3, k e2 = (r2, e3) -> e3 = e2) ->
  bind (checkpoint i il what) (fun _ => k) e = (r, e1) ->
  shouldUpdates (ctx e1)
  = drop (pollAt i) (shouldUpdates (ctx e)).
Proof.
  intros Hk. unfold bind.
  destruct (checkpoint i il what e) as [[err|u] e2] eqn:Hc.
  - intros H. injection H as _ <-. eapply checkpoint_polls; exact Hc.
  - intros H. apply Hk in H as ->. eapply checkpoint_polls; exact Hc.
Qed.

Lemma pollsFrom_cons (i n : nat) :
  pollsFrom i (S n) = (pollAt i + pollsFrom (S i) n)%nat.
Proof.
  unfold pollsFrom, pollAt. cbn [seq List.filter].
  destruct (Z.of_nat i mod 100000 =? 0); reflexivity.
Qed.

Lemma forTask_polls {X} (body : nat -> X -> Task Env X) :
  (forall j s e r e1, body j s e = (r, e1) ->
     shouldUpdates (ctx e1)
     = drop (pollAt j) (shouldUpdates (ctx e))) ->
  forall n i s e s' e',
    forTask i n body s e = (inr s', e') ->
    shouldUpdates (ctx e') = drop (pollsFrom i n) (shouldUpdates (ctx e)).
Proof.
  intros Hbody. induction n as [|n IH]; intros i s e s' e' H.
  - cbn in H. unfold ret in H. injection H as _ <-. reflexivity.
  - cbn [forTask] in H. apply bind_inr in H as (a & e1 & Hb & H).
    rewrite (IH _ _ _ _ _ H), (Hbody _ _ _ _ _ Hb), pollsFrom_cons.
    apply drop_drop.
Qed.

Lemma pollsFrom_closed (n : nat) :
  pollsFrom 0 n = Z.to_nat ((Z.of_nat n + 99999) / 100000).
Proof.
  assert (Hsnoc : forall k,
             pollsFrom 0 (S k)
             = (pollsFrom 0 k + pollAt k)%nat).
  { intros k. unfold pollsFrom, pollAt. rewrite seq_S, List.filter_app, length_app.
    cbn [List.filter Nat.add]. destruct (Z.of_nat k mod 100000 =? 0); reflexivity. }
  induction n as [|n IH]; [reflexivity|].
  rewrite Hsnoc, IH. unfold pollAt.
  destruct (Z.eqb_spec (Z.of_nat n mod 100000) 0) as [Hz|Hnz];
    zify; Z.to_euclidean_division_equations; lia.
Qed.

Lemma getMesh_polls (fn : list Z -> list (option Z) -> list Z)
    (vertex : PlyTable.t) (face : PlyList.t) (groupIds : list Z)
    (mesh : option (Obj Mesh.t)) (e e' : Env) (m : Obj Mesh.t) :
  getMesh fn vertex face groupIds mesh e = (inr m, e') ->
  shouldUpdates (ctx e')
  = drop (pollsFrom 0 (PlyTable.rowCount vertex)
          + pollsFrom 0 (PlyList.rowCount face))%nat (shouldUpdates (ctx e)).
Proof.
  unfold getMesh. intros H.
  apply bind_inr in H as (st & e1 & Hcs & H).
  unfold MeshBuilder.createState, bind, alloc, ret in Hcs. cbn in Hcs.
  injection Hcs as <- <-.
  destruct (PlyTable.getProperty vertex "x") as [x|]; [|discriminate H].
  destruct (PlyTable.getProperty vertex "y") as [y|]; [|discriminate H].
  destruct (PlyTable.getProperty vertex "z") as [z|]; [|discriminate H].
  apply bind_inr in H as (st1 & e2 & H1 & H).
  apply bind_inr in H as (st2 & e3 & H2 & H).
  apply bind_inr in H as (m0 & e4 & H3 & H).
  apply alloc_inr in H3 as [-> ->].
  assert (He' : ctx e' = ctx e3).
  { unfold computeNormals, ret in H.
    destruct (Mesh.normalsComputed _); injection H as _ <-; reflexivity. }
  rewrite He'.
  apply forTask_polls in H1.
  - apply forTask_polls in H2.
    + rewrite H2, H1. cbn [ctx]. apply drop_drop.
    + intros j s e0 r e1' Hb. unfold addFace in Hb.
      eapply turn_polls; [|exact Hb].
      intros e5 r5 e6. cbv zeta.
      destruct (PlyList.count (PlyList.value face j) =? 3); unfold ret;
        intros Hk; injection Hk as _ <-; reflexivity.
  - intros j s e0 r e1' Hb. unfold addVertex in Hb.
    eapply turn_polls; [|exact Hb].
    intros e5 r5 e6. cbv zeta. unfold ret.
    intros Hk; injection Hk as _ <-; reflexivity.
Qed.

(** X9: a build that returns has read [ctx.shouldUpdate] once every
    100000 rows of each loop, starting with row 0: for [nv] vertex rows
    and [nf] face rows, ceil(nv / 100000) + ceil(nf / 100000) times. *)
Theorem X9_context_consulted_every_100000_rows
    (fn : list Z -> list (option Z) -> list Z) (vertex : PlyTable.t)
    (face : PlyList.t) (groupIds : list Z) (mesh : option (Obj Mesh.t))
    (e e' : Env) (m : Obj Mesh.t) :
  getMesh fn vertex face groupIds mesh e = (inr m, e') ->
  shouldUpdates (ctx e')
  = drop (Z.to_nat ((Z.of_nat (PlyTable.rowCount vertex) + 99999) / 100000)
          + Z.to_nat ((Z.of_nat (PlyList.rowCount face) + 99999) / 100000))%nat
      (shouldUpdates (ctx e)).
Proof.
  intros H. rewrite <- !pollsFrom_closed. eapply getMesh_polls; exact H.
Qed.

Lemma X9_context_consulted_every_100000_rows_witness :
  exists m e',
    getMesh noNormals square triangleAndQuad [5; 7; 5; 9] None
      (mkEnv (mkCtx [false; true; true; false] [false]) [])
    = (inr m, e')
    /\ shouldUpdates (ctx e') = [true; false].
Proof.
  destruct (getMesh noNormals square triangleAndQuad [5; 7; 5; 9] None
              (mkEnv (mkCtx [false; true; true; false] [false]) []))
    as [[err|m] e'] eqn:H; [vm_compute in H; discriminate H|].
  exists m, e'. split; [reflexivity|].
  exact (X9_context_consulted_every_100000_rows _ _ _ _ _ _ _ _ H).
Defined.



(** ** The dense map, once more *)

Lemma getGrouping_map_last (lim : Z) (vertex : PlyTable.t) (props : Props) (g : Grouping) :
  Z.of_nat (PlyTable.rowCount vertex) <= 2 ^ 32 ->
  getGrouping lim vertex props = inr g ->
  forall i id,
    ids g !! i = Some id ->
    (forall j, (i < j)%nat -> ids g !! j <> Some id) ->
    arrayGet (map g) id = Some (Z.of_nat i).
Proof.
  intros Hbound Hg i id Hid Hlast.
  destruct (getGrouping_ids _ _ _ _ Hg) as (Hlen & _ & maxId & Hmax & Hmap).
  destruct (arrayMax_spec _ _ Hmax) as [Hin Hle].
  assert (Hrange : forall x, x ∈ ids g -> 0 <= x < 2 ^ 32)
    by (intros x; apply (getGrouping_ids_range _ _ _ _ _ Hg)).
  assert (Hloop := mapLoop_spec (ids g) (Z.to_nat (maxId + 1))).
  cbv zeta in Hloop. rewrite <- Hmap in Hloop.
  destruct Hloop as [_ HmapLook].
  { intros x Hx. specialize (Hrange x Hx). specialize (Hle x Hx). lia. }
  { rewrite Hlen. exact Hbound. }
  rewrite arrayGet_nonneg
    by (apply Hrange; eapply list_elem_of_lookup_2; exact Hid).
  apply HmapLook; assumption.
Qed.

Lemma mapLoop_holes (ids : list Z) (L k : nat) :
  (k < L)%nat ->
  (forall i, ids !! i <> Some (Z.of_nat k)) ->
  forRange 0 (length ids)
    (fun i map =>
       match ids !! i with
       | Some id => uint32Set map id (Z.of_nat i)
       | None => map
       end) (replicate L 0) !! k = Some 0.
Proof.
  intros Hk Hnot.
  apply (forRange_invariant (fun _ m => m !! k = Some 0)).
  - apply lookup_replicate_2. exact Hk.
  - intros j m _ Hm. destruct (ids !! j) as [id|] eqn:Hid; [|exact Hm].
    unfold uint32Set. destruct (Z.ltb_spec id 0) as [Hneg|Hpos]; [exact Hm|].
    rewrite list_lookup_insert_ne; [exact Hm|].
    intros Heq. apply (Hnot j). rewrite Hid. f_equal. lia.
Qed.

Lemma getGrouping_ext (lim : Z) (vertex : PlyTable.t) (props props' : Props) :
  grouping props' = grouping props ->
  getGrouping lim vertex props' = getGrouping lim vertex props.
Proof. unfold getGrouping. intros ->. reflexivity. Qed.

(** X11: an identifier that no vertex row carries, but that lies below
    the length of the dense map, is mapped to row 0, the value the map
    was filled with: the color callback of a shape built on the grouping
    answers for it with the color of row 0. *)
Theorem X11_unused_ids_map_to_row_0 (lim : Z) (vertex : PlyTable.t) (props : Props)
    (plyFile : PlyFile.t) (m : Obj Mesh.t) (col : Obj Coloring)
    (g : Obj Grouping) (groupId : Z) :
  getGrouping lim vertex props = inr (obj g) ->
  0 <= groupId < Z.of_nat (length (map (obj g))) ->
  ~ In groupId (ids (obj g)) ->
  arrayGet (map (obj g)) groupId = Some 0
  /\ getColor (shapeOf plyFile m col g) groupId = Some (rowColor (obj col) 0).
Proof.
  intros Hg Hr Hnot.
  destruct (getGrouping_ids _ _ _ _ Hg) as (_ & _ & maxId & Hmax & Hmap).
  pose proof (mapLoop_length (ids (obj g)) (Z.to_nat (maxId + 1))) as Hlen.
  rewrite <- Hmap in Hlen.
  assert (Hget : arrayGet (map (obj g)) groupId = Some 0).
  { rewrite arrayGet_nonneg by lia. rewrite Hmap.
    apply mapLoop_holes; [lia|].
    intros i Hi. apply Hnot. rewrite Z2Nat.id in Hi by lia.
    apply list_elem_of_In. eapply list_elem_of_lookup_2. exact Hi. }
  split; [exact Hget|].
  cbn [shapeOf getColor]. rewrite Hget. reflexivity.
Qed.

Lemma X11_unused_ids_map_to_row_0_witness :
  exists g,
    getGrouping engineLimit square uniformByAtom = inr g
    /\ arrayGet (map g) 6 = Some 0.
Proof.
  destruct (getGrouping engineLimit square uniformByAtom) as [err|g] eqn:H;
    [vm_compute in H; discriminate H|].
  exists g. split; [reflexivity|].
  assert (Hv : g = mkGrouping [5; 7; 5; 9] [0; 0; 0; 0; 0; 2; 0; 1; 0; 3])
    by (vm_compute in H; injection H as <-; reflexivity).
  refine (proj1 (X11_unused_ids_map_to_row_0 engineLimit square uniformByAtom squareFile
                   (mkObj 0%nat (Mesh.mk 0 0 [] [] [] [] true))
                   (mkObj 1%nat (getColoring square uniformByAtom))
                   (mkObj 2%nat g) 6 H _ _)).
  - rewrite Hv. cbn. lia.
  - rewrite Hv. cbn. intros [Hx|[Hx|[Hx|[Hx|[]]]]]; discriminate Hx.
Defined.

(** ** Requests, one after another *)

(** X12: a call that fails, for whatever reason, leaves the cached
    dataset, parameters, mesh and shape as they were. *)
Theorem X12_failed_call_keeps_mesh_and_shape
    (fn : list Z -> list (option Z) -> list Z) (lim : Z) (plyFile : PlyFile.t)
    (props : Props) (shape : option (Obj Shape)) (w w' : World) (err : Error) :
  getShape fn lim plyFile props shape w = (inl err, w') ->
  _plyFile (cache w') = _plyFile (cache w)
  /\ _props (cache w') = _props (cache w)
  /\ _mesh (cache w') = _mesh (cache w)
  /\ _shape (cache w') = _shape (cache w).
Proof. apply getShape_failure_keeps. Qed.

Lemma X12_failed_call_keeps_mesh_and_shape_witness :
  exists err w',
    getShape noNormals engineLimit squareFile uniformNone None
      (mkWorld (mkEnv cancelled []) emptyCache) = (inl err, w')
    /\ _mesh (cache w') = None /\ _shape (cache w') = None.
Proof.
  destruct (getShape noNormals engineLimit squareFile uniformNone None
              (mkWorld (mkEnv cancelled []) emptyCache))
    as [[err|r] w'] eqn:H; [|vm_compute in H; discriminate H].
  exists err, w'. split; [reflexivity|].
  destruct (X12_failed_call_keeps_mesh_and_shape _ _ _ _ _ _ _ _ H)
    as (_ & _ & Hm & Hs).
  split; [exact Hm|exact Hs].
Defined.

(** X13: a request for a file without a vertex element, or without a
    face element, fails with the error of the first one missing and
    changes nothing: no cached value, no object, no checkpoint. *)
Theorem X13_missing_element_changes_nothing
    (fn : list Z -> list (option Z) -> list Z) (lim : Z) (plyFile : PlyFile.t)
    (props : Props) (shape : option (Obj Shape)) (w : World) :
  PlyFile.vertex plyFile = None \/ PlyFile.face plyFile = None ->
  getShape fn lim plyFile props shape w
  = (inl (match PlyFile.vertex plyFile with
          | None => MissingVertexElement
          | Some _ => MissingFaceElement
          end), w).
Proof.
  unfold getShape. intros [H|H].
  - rewrite H. reflexivity.
  - rewrite H. destruct (PlyFile.vertex plyFile); reflexivity.
Qed.

Lemma X13_missing_element_changes_nothing_witness :
  getShape noNormals engineLimit (PlyFile.mk 3 (Some square) None) uniformNone None start
  = (inl MissingFaceElement, start).
Proof.
  exact (X13_missing_element_changes_nothing noNormals engineLimit
           (PlyFile.mk 3 (Some square) None) uniformNone None start
           (or_intror eq_refl)).
Defined.

(** X14: a call that returns leaves a consistent cache consistent: the
    cached shape is the one built from the cached mesh, coloring and
    grouping.  So every run of returning calls on a new getter ends in a
    consistent cache. *)
Theorem X14_returning_calls_keep_cache_consistent
    (fn : list Z -> list (option Z) -> list Z) (lim : Z) (plyFile : PlyFile.t)
    (props : Props) (shape : option (Obj Shape)) (w w' : World)
    (r : option (Obj Shape)) :
  cacheConsistent (cache w) ->
  getShape fn lim plyFile props shape w = (inr r, w') ->
  cacheConsistent (cache w').
Proof. apply getShape_consistent. Qed.

Lemma X14_returning_calls_keep_cache_consistent_witness :
  exists r w1,
    getShape noNormals engineLimit squareFile uniformNone None start = (inr r, w1)
    /\ cacheConsistent (cache w1).
Proof.
  destruct (getShape noNormals engineLimit squareFile uniformNone None start)
    as [[err|r] w1] eqn:H; [vm_compute in H; discriminate H|].
  exists r, w1. split; [reflexivity|].
  exact (X14_returning_calls_keep_cache_consistent noNormals engineLimit squareFile
           uniformNone None start w1 r emptyCache_consistent H).
Defined.

(** X15: a call that returns after it had to rebuild (nothing cached, or
    another dataset, or other grouping parameters) has created exactly
    five objects, in this order: a coloring, a grouping, a builder state,
    a mesh and a shape.  The grouping is the one [getGrouping] computes
    for the request, the mesh is built on its identifiers, and the shape
    returned, which the cache then holds together with all of them, is
    built from these three. *)
Theorem X15_full_rebuild
    (fn : list Z -> list (option Z) -> list Z) (lim : Z) (plyFile : PlyFile.t)
    (props : Props) (shape : option (Obj Shape)) (e : Env) (c : Cache)
    (r : option (Obj Shape)) (w' : World) :
  mustRebuild c plyFile props ->
  getShape fn lim plyFile props shape (mkWorld e c) = (inr r, w') ->
  exists vertex face g cc e',
    PlyFile.vertex plyFile = Some vertex /\ PlyFile.face plyFile = Some face
    /\ getGrouping lim vertex props = inr g /\ coordinates vertex = Some cc
    /\ let col := mkObj (length (heap e)) (getColoring vertex props) in
       let grp := mkObj (length (heap e) + 1) g in
       let m := mkObj (length (heap e) + 3)
                  (builtMesh fn vertex face (ids g) cc) in
       let s := mkObj (length (heap e) + 4) (shapeOf plyFile m col grp) in
       r = Some s
       /\ w' = mkWorld e' (rebuiltCache plyFile props s m col grp)
       /\ heap e' = heap e ++ [KColoring; KGrouping; KBuilderState; KMesh; KShape].
Proof. apply getShape_rebuild_inv. Qed.

Lemma X15_full_rebuild_witness :
  exists r w',
    getShape noNormals engineLimit squareFile uniformByAtom None start = (inr r, w')
    /\ heap (env w') = [KColoring; KGrouping; KBuilderState; KMesh; KShape].
Proof.
  destruct (getShape noNormals engineLimit squareFile uniformByAtom None start)
    as [[err|r] w'] eqn:H; [vm_compute in H; discriminate H|].
  exists r, w'. split; [reflexivity|].
  destruct (X15_full_rebuild noNormals engineLimit squareFile uniformByAtom None
              (mkEnv idle []) emptyCache r w' (or_introl I) H)
    as (vertex & face & g & cc & e' & _ & _ & _ & _ & _ & Hw & Hh).
  rewrite Hw. exact Hh.
Defined.



(** ** The callbacks of a rebuilt shape *)

Lemma groupReads_In (groupIds : list Z) (n : nat) (groupId : Z) :
  In (Some groupId) (groupReads groupIds 0 n) -> In groupId groupIds.
Proof.
  unfold groupReads. intros H. apply in_map_iff in H as (j & Hj & _).
  apply list_elem_of_In. eapply list_elem_of_lookup_2. exact Hj.
Qed.

(** X17: in the shape a rebuild returns, for every group id held by the
    group buffer of its mesh the color callback answers and the size
    callback answers 1; the label callback answers exactly for the group
    ids below the number of vertex rows. *)
Theorem X17_callbacks_of_rebuilt_shape
    (fn : list Z -> list (option Z) -> list Z) (lim : Z) (plyFile : PlyFile.t)
    (props : Props) (shape : option (Obj Shape)) (e : Env) (c : Cache)
    (s : Obj Shape) (w' : World) (vertex : PlyTable.t) (groupId : Z) :
  mustRebuild c plyFile props ->
  getShape fn lim plyFile props shape (mkWorld e c) = (inr (Some s), w') ->
  PlyFile.vertex plyFile = Some vertex ->
  In (Some groupId) (Mesh.groupBuffer (obj (geometry (obj s)))) ->
  is_Some (getColor (obj s) groupId)
  /\ getSize (obj s) groupId = 1
  /\ ((exists label, getLabel (obj s) groupId = inr label)
      <-> groupId < Z.of_nat (PlyTable.rowCount vertex)).
Proof.
  intros Hmust H Hv Hin.
  destruct (getShape_rebuild_inv _ _ _ _ _ _ _ _ _ Hmust H)
    as (vertex' & face & g & cc & e' & Hv' & _ & Hg & _ & Hs & _).
  rewrite Hv in Hv'. injection Hv' as <-. cbv zeta in Hs.
  injection Hs as ->. cbn [obj geometry shapeOf] in Hin.
  unfold builtMesh in Hin. cbn [Mesh.groupBuffer] in Hin.
  apply groupReads_In in Hin.
  set (grp := mkObj (length (heap e) + 1) g) in *.
  assert (Hg' : getGrouping lim vertex props = inr (obj grp)) by exact Hg.
  assert (Hin' : groupId ∈ ids (obj grp)) by (apply list_elem_of_In; exact Hin).
  cbn [obj].
  destruct (getColor_getSize_answer lim vertex props plyFile
              (mkObj (length (heap e) + 3) (builtMesh fn vertex face (ids g) cc))
              (mkObj (length (heap e)) (getColoring vertex props)) grp groupId
              Hg' Hin') as [Hc Hsz].
  split; [exact Hc|]. split; [exact Hsz|].
  rewrite getLabel_answers_iff by exact Hg'.
  pose proof (getGrouping_ids_range _ _ _ _ _ Hg' Hin') as Hr. lia.
Qed.

Lemma X17_callbacks_of_rebuilt_shape_witness :
  exists s w',
    getShape noNormals engineLimit squareFile uniformByAtom None start = (inr (Some s), w')
    /\ is_Some (getColor (obj s) 9)
    /\ getSize (obj s) 9 = 1
    /\ ((exists label, getLabel (obj s) 9 = inr label) <-> 9 < 4).
Proof.
  destruct (getShape noNormals engineLimit squareFile uniformByAtom None start)
    as [[err|[s|]] w'] eqn:H; try (vm_compute in H; discriminate H).
  exists s, w'. split; [reflexivity|].
  apply (X17_callbacks_of_rebuilt_shape noNormals engineLimit squareFile uniformByAtom None
           (mkEnv idle []) emptyCache s w' square 9 (or_introl I) H eq_refl).
  vm_compute in H. injection H as <- _. cbn. auto.
Defined.

(** X18: on a table of at most 2^32 rows, the color callback of a rebuilt
    shape gives a group the color of the last vertex row that carries its
    identifier, read from the coloring resolved for the request. *)
Theorem X18_group_color_is_that_of_its_last_row
    (fn : list Z -> list (option Z) -> list Z) (lim : Z) (plyFile : PlyFile.t)
    (props : Props) (shape : option (Obj Shape)) (e : Env) (c : Cache)
    (s : Obj Shape) (w' : World) (vertex : PlyTable.t) :
  mustRebuild c plyFile props ->
  getShape fn lim plyFile props shape (mkWorld e c) = (inr (Some s), w') ->
  PlyFile.vertex plyFile = Some vertex ->
  Z.of_nat (PlyTable.rowCount vertex) <= 2 ^ 32 ->
  exists g,
    getGrouping lim vertex props = inr g
    /\ forall i id,
         ids g !! i = Some id ->
         (forall j, (i < j)%nat -> ids g !! j <> Some id) ->
         getColor (obj s) id = Some (rowColor (getColoring vertex props) i).
Proof.
  intros Hmust H Hv Hbound.
  destruct (getShape_rebuild_inv _ _ _ _ _ _ _ _ _ Hmust H)
    as (vertex' & face & g & cc & e' & Hv' & _ & Hg & _ & Hs & _).
  rewrite Hv in Hv'. injection Hv' as <-. cbv zeta in Hs.
  injection Hs as ->. exists g. split; [exact Hg|].
  intros i id Hid Hlast. cbn [obj shapeOf getColor].
  rewrite (getGrouping_map_last _ _ _ _ Hbound Hg i id Hid Hlast).
  rewrite Nat2Z.id. reflexivity.
Qed.

Lemma X18_group_color_is_that_of_its_last_row_witness :
  exists s w',
    getShape noNormals engineLimit coloredFile vertexByAtom None start = (inr (Some s), w')
    /\ getColor (obj s) 5 = Some (Color.mk 0 0 255).
Proof.
  destruct (getShape noNormals engineLimit coloredFile vertexByAtom None start)
    as [[err|[s|]] w'] eqn:H; try (vm_compute in H; discriminate H).
  exists s, w'. split; [reflexivity|].
  destruct (X18_group_color_is_that_of_its_last_row noNormals engineLimit coloredFile
              vertexByAtom None (mkEnv idle []) emptyCache s w' coloredSquare
              (or_introl I) H eq_refl ltac:(vm_compute; discriminate))
    as (g & Hg & Hcol).
  vm_compute in Hg. injection Hg as <-.
  refine (Hcol 2%nat 5 eq_refl _).
  intros j Hj. destruct j as [|[|[|[|j]]]]; try lia; cbn; discriminate.
Defined.

(** X19: with no group column selected, on a table of at most 2^32 rows,
    a rebuilt shape treats every vertex as its own group: row [i] has
    group id [i], its label is the decimal numeral of [i] and its color
    is the color of row [i]. *)
Theorem X19_without_grouping_each_row_is_a_group
    (fn : list Z -> list (option Z) -> list Z) (lim : Z) (plyFile : PlyFile.t)
    (props : Props) (shape : option (Obj Shape)) (e : Env) (c : Cache)
    (s : Obj Shape) (w' : World) (vertex : PlyTable.t) (i : nat) :
  mustRebuild c plyFile props ->
  getShape fn lim plyFile props shape (mkWorld e c) = (inr (Some s), w') ->
  PlyFile.vertex plyFile = Some vertex ->
  groupColumn vertex props = None ->
  Z.of_nat (PlyTable.rowCount vertex) <= 2 ^ 32 ->
  (i < PlyTable.rowCount vertex)%nat ->
  Mesh.groupBuffer (obj (geometry (obj s))) !! i = Some (Some (Z.of_nat i))
  /\ getLabel (obj s) (Z.of_nat i) = inr (pretty (Z.of_nat i))
  /\ getColor (obj s) (Z.of_nat i)
     = Some (rowColor (getColoring vertex props) i).
Proof.
  intros Hmust H Hv Hnone Hbound Hi.
  destruct (getShape_rebuild_inv _ _ _ _ _ _ _ _ _ Hmust H)
    as (vertex' & face & g & cc & e' & Hv' & _ & Hg & _ & Hs & _).
  rewrite Hv in Hv'. injection Hv' as <-. cbv zeta in Hs.
  injection Hs as ->.
  destruct (getGrouping_ids _ _ _ _ Hg) as (Hlen & Hlook & _).
  assert (Hids : forall j, (j < PlyTable.rowCount vertex)%nat ->
                   ids g !! j = Some (Z.of_nat j)).
  { intros j Hj. rewrite (Hlook j Hj), Hnone.
    rewrite toUint32_small by lia. reflexivity. }
  cbn [obj geometry shapeOf getLabel getColor].
  unfold builtMesh. cbn [Mesh.groupBuffer].
  split; [|split].
  - rewrite groupReads_lookup by exact Hi. rewrite (Hids i Hi). reflexivity.
  - rewrite arrayGet_nonneg by lia. rewrite Nat2Z.id, (Hids i Hi). reflexivity.
  - rewrite (getGrouping_map_last _ _ _ _ Hbound Hg i (Z.of_nat i) (Hids i Hi)).
    + rewrite Nat2Z.id. reflexivity.
    + intros j Hj Heq.
      destruct (Nat.lt_ge_cases j (PlyTable.rowCount vertex)) as [Hjn|Hjn].
      * rewrite (Hids j Hjn) in Heq. injection Heq as Heq. lia.
      * rewrite lookup_ge_None_2 in Heq by (rewrite Hlen; exact Hjn).
        discriminate Heq.
Qed.

Lemma X19_without_grouping_each_row_is_a_group_witness :
  exists s w',
    getShape noNormals engineLimit coloredFile
      (mkProps (ColoringVertex "red" "green" "blue") GroupingNone) None start
    = (inr (Some s), w')
    /\ getLabel (obj s) 3 = inr "3"
    /\ getColor (obj s) 3 = Some (Color.mk 10 20 30).
Proof.
  destruct (getShape noNormals engineLimit coloredFile
              (mkProps (ColoringVertex "red" "green" "blue") GroupingNone)
              None start)
    as [[err|[s|]] w'] eqn:H; try (vm_compute in H; discriminate H).
  exists s, w'. split; [reflexivity|].
  destruct (X19_without_grouping_each_row_is_a_group noNormals engineLimit coloredFile
              (mkProps (ColoringVertex "red" "green" "blue") GroupingNone)
              None (mkEnv idle []) emptyCache s w' coloredSquare 3%nat
              (or_introl I) H eq_refl eq_refl
              ltac:(vm_compute; discriminate) ltac:(cbn; lia))
    as (_ & Hl & Hc).
  split; [exact Hl|exact Hc].
Defined.

(** X20: the color-only path returns what a rebuild would: when a request
    that had to rebuild has returned, and a second request for the same
    dataset changes only the coloring parameters, the shape it returns
    has the same mesh contents and the same color, size and label
    callbacks as the shape a rebuild for the second request returns. *)
Theorem X20_color_only_matches_rebuild
    (fn : list Z -> list (option Z) -> list Z) (lim : Z) (plyFile : PlyFile.t)
    (props props' : Props) (h1 h2 h3 : option (Obj Shape))
    (e1 e2 e3 : Env) (c1 c3 : Cache) (s1 s2 s3 : Obj Shape) (w1 w2 w3 : World) :
  mustRebuild c1 plyFile props ->
  getShape fn lim plyFile props h1 (mkWorld e1 c1) = (inr (Some s1), w1) ->
  grouping props' = grouping props -> coloring props' <> coloring props ->
  getShape fn lim plyFile props' h2 (mkWorld e2 (cache w1)) = (inr (Some s2), w2) ->
  mustRebuild c3 plyFile props' ->
  getShape fn lim plyFile props' h3 (mkWorld e3 c3) = (inr (Some s3), w3) ->
  obj (geometry (obj s2)) = obj (geometry (obj s3))
  /\ forall groupId,
       getColor (obj s2) groupId = getColor (obj s3) groupId
       /\ getSize (obj s2) groupId = getSize (obj s3) groupId
       /\ getLabel (obj s2) groupId = getLabel (obj s3) groupId.
Proof.
  intros Hm1 H1 Hgr Hco H2 Hm3 H3.
  destruct (getShape_rebuild_inv _ _ _ _ _ _ _ _ _ Hm1 H1)
    as (vertex & face & g & cc & e' & Hv & Hf & Hg & Hcc & _ & Hw1 & _).
  cbv zeta in Hw1. rewrite Hw1 in H2. cbn [cache] in H2.
  match type of H2 with
  | getShape _ _ _ _ _ (mkWorld _ (rebuiltCache _ _ ?s ?m ?col ?grp)) = _ =>
      pose proof (getShape_colorOnly fn lim plyFile props props' h2 e2
                    (rebuiltCache plyFile props s m col grp) vertex face m grp
                    Hv Hf eq_refl eq_refl eq_refl eq_refl Hgr Hco) as Hc2
  end.
  cbv zeta in Hc2. rewrite Hc2 in H2. clear Hc2. injection H2 as <- _.
  destruct (getShape_rebuild_inv _ _ _ _ _ _ _ _ _ Hm3 H3)
    as (vertex3 & face3 & g3 & cc3 & e3' & Hv3 & Hf3 & Hg3 & Hcc3 & Hs3 & _).
  rewrite Hv in Hv3. injection Hv3 as <-.
  rewrite Hf in Hf3. injection Hf3 as <-.
  rewrite (getGrouping_ext _ _ _ _ Hgr), Hg in Hg3. injection Hg3 as <-.
  rewrite Hcc in Hcc3. injection Hcc3 as <-.
  cbv zeta in Hs3. injection Hs3 as ->.
  cbn [obj geometry shapeOf getColor getSize getLabel].
  split; [reflexivity|]. intros groupId. repeat split; reflexivity.
Qed.

Lemma X20_color_only_matches_rebuild_witness :
  exists s1 s2 s3 w1 w2 w3,
    getShape noNormals engineLimit coloredFile uniformByAtom None start = (inr (Some s1), w1)
    /\ getShape noNormals engineLimit coloredFile vertexByAtom (Some s1)
         (mkWorld (mkEnv idle (heap (env w1))) (cache w1)) = (inr (Some s2), w2)
    /\ getShape noNormals engineLimit coloredFile vertexByAtom None start = (inr (Some s3), w3)
    /\ getColor (obj s2) 7 = getColor (obj s3) 7
    /\ addr s2 <> addr s3.
Proof.
  destruct (getShape noNormals engineLimit coloredFile uniformByAtom None start)
    as [[err|[s1|]] w1] eqn:H1; try (vm_compute in H1; discriminate H1).
  destruct (getShape noNormals engineLimit coloredFile vertexByAtom (Some s1)
              (mkWorld (mkEnv idle (heap (env w1))) (cache w1)))
    as [[err|[s2|]] w2] eqn:H2;
    try (vm_compute in H1; injection H1 as <- <-; vm_compute in H2;
         discriminate H2).
  destruct (getShape noNormals engineLimit coloredFile vertexByAtom None start)
    as [[err|[s3|]] w3] eqn:H3; try (vm_compute in H3; discriminate H3).
  exists s1, s2, s3, w1, w2, w3.
  split; [reflexivity|]. split; [exact H2|]. split; [reflexivity|].
  split.
  - apply (X20_color_only_matches_rebuild noNormals engineLimit coloredFile uniformByAtom
             vertexByAtom None (Some s1) None (mkEnv idle [])
             (mkEnv idle (heap (env w1))) (mkEnv idle []) emptyCache emptyCache
             s1 s2 s3 w1 w2 w3 (or_introl I) H1 eq_refl
             ltac:(discriminate) H2 (or_introl I) H3).
  - vm_compute in H1. injection H1 as <- <-.
    vm_compute in H2. injection H2 as <- _.
    vm_compute in H3. injection H3 as <- _.
    cbn. lia.
Defined.

(** ** Retrying after a failure *)

Lemma mustRebuild_of_newMesh (c : Cache) (plyFile : PlyFile.t) (props : Props) :
  (match _plyFile c with
   | Some f => negb (PlyFile.ref f =? PlyFile.ref plyFile)%nat
   | None => true
   end
   || match _props c with
      | Some p => negb (isParamEqual (grouping p) (grouping props))
      | None => true
      end) = true ->
  mustRebuild c plyFile props.
Proof.
  intros H. apply orb_true_iff in H as [H|H]; [left|right].
  - destruct (_plyFile c) as [f|]; [|exact I].
    apply negb_true_iff, Nat.eqb_neq in H. exact H.
  - destruct (_props c) as [p|]; [|exact I].
    apply negb_true_iff, isParamEqual_false in H. exact H.
Qed.

(** On a consistent cache only a request that has to rebuild can fail,
    unless an element is missing. *)
Lemma getShape_fails_in_rebuild (fn : list Z -> list (option Z) -> list Z) (lim : Z)
    (plyFile : PlyFile.t) (props : Props) (shape : option (Obj Shape))
    (w w' : World) (err : Error) :
  cacheConsistent (cache w) ->
  getShape fn lim plyFile props shape w = (inl err, w') ->
  (PlyFile.vertex plyFile = None \/ PlyFile.face plyFile = None)
  \/ mustRebuild (cache w) plyFile props.
Proof.
  intros Hcons. unfold getShape.
  destruct (PlyFile.vertex plyFile) as [vertex|]; [|auto].
  destruct (PlyFile.face plyFile) as [face|]; [|auto].
  intros H. right.
  apply bind_inl in H as [H | (c & wA & Hread & H)]; [discriminate H|].
  unfold readCache in Hread. injection Hread as <- <-.
  apply bind_inl in H as [H | (u & wB & _ & H)];
    [|unfold bind, assign, readCache, ret in H; discriminate H].
  destruct (_ || _) eqn:HnewMesh;
    [apply mustRebuild_of_newMesh; exact HnewMesh|].
  exfalso. apply orb_false_iff in HnewMesh as [_ Hprops].
  destruct (_props (cache w)) as [p|] eqn:Hp; [|discriminate Hprops].
  destruct (Hcons p Hp) as (f & s & m & col & g & _ & Hm & _ & Hg & _).
  rewrite Hm, Hg in H.
  destruct (negb (isParamEqual (coloring p) (coloring props)));
    [|discriminate H].
  apply bind_inl in H as [H | (col' & w1 & Hcol & H)];
    [unfold inEnv, alloc in H; discriminate H|].
  apply bind_inl in H as [H | (u1 & w2 & Ha1 & H)]; [discriminate H|].
  apply bind_inl in H as [H | (s' & w7 & Hs & H)]; [|discriminate H].
  unfold inEnv in H. rewrite createShape_eq in H. discriminate H.
Qed.

(** X21: a failure is repaired by a retry.  When a request fails on a
    consistent cache and the same request is made again and returns, it
    rebuilds everything: the coloring and grouping left behind by the
    failed call are replaced, and the cache is consistent again. *)
Theorem X21_retry_after_failure_rebuilds
    (fn : list Z -> list (option Z) -> list Z) (lim : Z) (plyFile : PlyFile.t)
    (props : Props) (h1 h2 : option (Obj Shape)) (w w' w'' : World)
    (e2 : Env) (err : Error) (r : option (Obj Shape)) :
  cacheConsistent (cache w) ->
  getShape fn lim plyFile props h1 w = (inl err, w') ->
  getShape fn lim plyFile props h2 (mkWorld e2 (cache w')) = (inr r, w'') ->
  cacheConsistent (cache w'')
  /\ heap (env w'')
     = heap e2 ++ [KColoring; KGrouping; KBuilderState; KMesh; KShape].
Proof.
  intros Hcons Hfail Hretry.
  destruct (getShape_success_cache _ _ _ _ _ _ _ _ Hretry)
    as ((vertex & face & Hv & Hf) & _).
  assert (Hmust : mustRebuild (cache w') plyFile props).
  { destruct (getShape_fails_in_rebuild _ _ _ _ _ _ _ _ Hcons Hfail)
      as [[H|H]|H]; [congruence|congruence|].
    destruct (getShape_failure_keeps _ _ _ _ _ _ _ _ Hfail) as (Hpf & Hp & _).
    unfold mustRebuild in *. rewrite Hpf, Hp. exact H. }
  destruct (getShape_rebuild_inv _ _ _ _ _ _ _ _ _ Hmust Hretry)
    as (vertex' & face' & g & cc & e' & _ & _ & _ & _ & _ & Hw & Hh).
  cbv zeta in Hw. rewrite Hw. cbn [cache env]. split; [|exact Hh].
  intros p _. unfold built, rebuiltCache.
  cbn [_shape _mesh _coloring _grouping].
  eexists plyFile, _, _, _, _. repeat conj; reflexivity.
Qed.

Lemma X21_retry_after_failure_rebuilds_witness :
  exists err w' r w'',
    getShape noNormals engineLimit squareFile uniformByAtom None
      (mkWorld (mkEnv cancelled []) emptyCache) = (inl err, w')
    /\ getShape noNormals engineLimit squareFile uniformByAtom None
         (mkWorld (mkEnv idle (heap (env w'))) (cache w')) = (inr r, w'')
    /\ cacheConsistent (cache w'').
Proof.
  destruct (getShape noNormals engineLimit squareFile uniformByAtom None
              (mkWorld (mkEnv cancelled []) emptyCache))
    as [[err|r0] w'] eqn:H1; [|vm_compute in H1; discriminate H1].
  destruct (getShape noNormals engineLimit squareFile uniformByAtom None
              (mkWorld (mkEnv idle (heap (env w'))) (cache w')))
    as [[err2|r] w''] eqn:H2;
    [vm_compute in H1; injection H1 as <- <-; vm_compute in H2; discriminate H2|].
  exists err, w', r, w''. split; [reflexivity|]. split; [exact H2|].
  exact (proj1 (X21_retry_after_failure_rebuilds noNormals engineLimit squareFile
                  uniformByAtom None None
                  (mkWorld (mkEnv cancelled []) emptyCache) w' w''
                  (mkEnv idle (heap (env w'))) err r
                  emptyCache_consistent H1 H2)).
Defined.

(** X22: [getGrouping] throws the range error of [new Uint32Array] when
    the identifier of some row, read as a [Uint32], is not below the
    largest length the engine allocates: the map would need one cell more
    than that identifier.  A negative identifier such as -1 reads as
    2^32 - 1 and is such a row. *)
Theorem X22_grouping_throws_on_large_identifier (lim : Z) (vertex : PlyTable.t)
    (props : Props) (i : nat) :
  (i < PlyTable.rowCount vertex)%nat -> lim <= rowId vertex props i ->
  getGrouping lim vertex props = inl InvalidArrayLength.
Proof. apply getGrouping_too_large. Qed.

Lemma X22_grouping_throws_on_large_identifier_witness :
  rowId negativeId uniformByAtom 0 = 2 ^ 32 - 1
  /\ getGrouping engineLimit negativeId uniformByAtom = inl InvalidArrayLength.
Proof.
  split; [reflexivity|].
  apply (X22_grouping_throws_on_large_identifier engineLimit negativeId
           uniformByAtom 0).
  - cbn. lia.
  - vm_compute. discriminate.
Defined.
